(** * On-shelf availability: the gap-filling and imputation notebook

    A shallow embedding of [Codes/On-Shelf_Availability_1.py] (steps 2 and 3
    of the notebook: dates, store-SKUs, the cross join and left outer join,
    the imputation of missing values and the inventory flags).

    A DataFrame is a list of rows.  Spark fixes no order of the rows; the
    lists here follow one convention (a group-by lists its groups in the
    order in which they are first met, a join lists the rows of its left
    side in their order and, for each, the matching rows of the right side
    in theirs, a window keeps its rows in place), and [f.last] takes the
    last row of a group in the order of the table.  Where a property
    pairs the rows of a DataFrame with those of the next one, the position
    only names the same row; the properties of the output are stated per
    date and key.
    Dates are day numbers ([datetime.date] ordinals).  The records are those
    with a date, a store_id and a sku; the category and the nine measures
    are nullable.  A Python exception is the name of its class. *)

From Stdlib Require Import String ZArith List Bool Lia Sorted FinFun
  Permutation.
Import ListNotations.
Open Scope string_scope.
Open Scope list_scope.
Open Scope Z_scope.

(** ** Failing cells *)

Inductive result (A : Type) : Type :=
| Ok (a : A)
| Raise (exc : string).

Arguments Ok {A} a.
Arguments Raise {A} exc.

Definition bind {A B : Type} (m : result A) (k : A -> result B) : result B :=
  match m with
  | Ok a => k a
  | Raise e => Raise e
  end.

Notation "x <- m ;; k" := (bind m (fun x => k))
  (at level 61, m at next level, right associativity).

(** ** Rows: [inventory_schema] *)

Record Row : Type := mkRow {
  date : Z;
  store_id : Z;
  sku : Z;
  product_category : option string;
  total_sales_units : option Z;
  on_hand_inventory_units : option Z;
  replenishment_units : option Z;
  inventory_pipeline : option Z;
  units_in_transit : option Z;
  units_in_dc : option Z;
  units_on_order : option Z;
  units_under_promotion : option Z;
  shelf_capacity : option Z
}.

(** The nine measure columns, by name. *)
Inductive column : Type :=
| TotalSalesUnits
| OnHandInventoryUnits
| ReplenishmentUnits
| InventoryPipeline
| UnitsInTransit
| UnitsInDc
| UnitsOnOrder
| UnitsUnderPromotion
| ShelfCapacity.

Definition column_eq_dec (a b : column) : {a = b} + {a <> b}.
Proof. decide equality. Defined.

Definition col (c : column) (r : Row) : option Z :=
  match c with
  | TotalSalesUnits => total_sales_units r
  | OnHandInventoryUnits => on_hand_inventory_units r
  | ReplenishmentUnits => replenishment_units r
  | InventoryPipeline => inventory_pipeline r
  | UnitsInTransit => units_in_transit r
  | UnitsInDc => units_in_dc r
  | UnitsOnOrder => units_on_order r
  | UnitsUnderPromotion => units_under_promotion r
  | ShelfCapacity => shelf_capacity r
  end.

(** [withColumn c v] on one row: the column is replaced, the others kept. *)
Definition with_col (c : column) (v : option Z) (r : Row) : Row :=
  let 'mkRow d s k cat ts oh rp ip it dc oo up sc := r in
  match c with
  | TotalSalesUnits => mkRow d s k cat v oh rp ip it dc oo up sc
  | OnHandInventoryUnits => mkRow d s k cat ts v rp ip it dc oo up sc
  | ReplenishmentUnits => mkRow d s k cat ts oh v ip it dc oo up sc
  | InventoryPipeline => mkRow d s k cat ts oh rp v it dc oo up sc
  | UnitsInTransit => mkRow d s k cat ts oh rp ip v dc oo up sc
  | UnitsInDc => mkRow d s k cat ts oh rp ip it v oo up sc
  | UnitsOnOrder => mkRow d s k cat ts oh rp ip it dc v up sc
  | UnitsUnderPromotion => mkRow d s k cat ts oh rp ip it dc oo v sc
  | ShelfCapacity => mkRow d s k cat ts oh rp ip it dc oo up v
  end.

(** The key of a record: (store_id, sku). *)
Definition Key : Type := (Z * Z)%type.

Definition key_of (r : Row) : Key := (store_id r, sku r).

Definition key_eqb (a b : Key) : bool :=
  (fst a =? fst b) && (snd a =? snd b).

Definition Key_eq_dec (a b : Key) : {a = b} + {a <> b}.
Proof. decide equality; apply Z.eq_dec. Defined.

(** ** Step 2: dates *)

(** [f.min('date')] and [f.max('date')] of a global aggregation: the buffer
    starts null, so an empty table gives a row of nulls. *)
Definition agg_min (l : list Z) : option Z :=
  fold_left (fun acc d => match acc with
                          | None => Some d
                          | Some m => Some (Z.min m d)
                          end) l None.

Definition agg_max (l : list Z) : option Z :=
  fold_left (fun acc d => match acc with
                          | None => Some d
                          | Some m => Some (Z.max m d)
                          end) l None.

(** [spark.range(n)]: the ids 0 .. n-1. *)
Definition spark_range (n : Z) : list Z :=
  map Z.of_nat (seq 0 (Z.to_nat n)).

(** [cast(id as integer)]: a long narrowed to 32 bits; outside the 32-bit
    range it wraps around (spark.sql.ansi.enabled=false).  The ids of a
    range of calendar days are within the range. *)
Definition cast_integer (id : Z) : Z :=
  (id + 2 ^ 31) mod 2 ^ 32 - 2 ^ 31.

(** The first day number that [f.lit] takes: 1000-01-01.  A [datetime.date]
    is handed to the JVM as the text of [strftime('%Y-%m-%d')], read back
    by [java.sql.Date.valueOf], which refuses a year of fewer than four
    digits. *)
Definition first_lit_date : Z := 364878.

Definition lit_date (d : Z) : result Z :=
  if d <? first_lit_date then Raise "IllegalArgumentException" else Ok d.

(** [dates]: [(end_date - start_date).days + 1] ids added to [start_date].
    On a row of nulls the subtraction [None - None] raises [TypeError];
    then [f.lit(start_date)] raises for a start date before 1000-01-01. *)
Definition dates (inventory_raw : list Row) : result (list Z) :=
  let start_date := agg_min (map date inventory_raw) in
  let end_date := agg_max (map date inventory_raw) in
  match start_date, end_date with
  | Some s, Some e =>
      let ids := spark_range ((e - s) + 1) in
      start <- lit_date s ;;
      Ok (map (fun id => start + cast_integer id) ids)
  | _, _ => Raise "TypeError"
  end.

(** ** Step 2: store-SKUs *)

(** One aggregation buffer per (store_id, sku) group, in the order in which
    the groups are first met; [f.last] overwrites the buffer with each row of
    the group. *)
Fixpoint upsert (k : Key) (cat : option string) (groups : list (Key * option string))
  : list (Key * option string) :=
  match groups with
  | [] => [(k, cat)]
  | (k', cat') :: rest =>
      if key_eqb k k' then (k', cat) :: rest
      else (k', cat') :: upsert k cat rest
  end.

Definition store_skus (inventory_raw : list Row) : list (Key * option string) :=
  fold_left (fun groups r => upsert (key_of r) (product_category r) groups)
            inventory_raw [].

(** ** Step 2: the complete set of records *)

Definition crossJoin (ds : list Z) (sk : list (Key * option string))
  : list (Z * (Key * option string)) :=
  flat_map (fun d => map (fun ks => (d, ks)) sk) ds.

Definition cell_date (cell : Z * (Key * option string)) : Z := fst cell.
Definition cell_key (cell : Z * (Key * option string)) : Key := fst (snd cell).
Definition cell_category (cell : Z * (Key * option string))
  : option string :=
  snd (snd cell).

(** A row of date [d] and key [k]. *)
Definition at_cell (d : Z) (k : Key) (r : Row) : bool :=
  (d =? date r) && key_eqb k (key_of r).

(** The join condition on ['date','store_id','sku']. *)
Definition join_on (cell : Z * (Key * option string)) (r : Row) : bool :=
  at_cell (cell_date cell) (cell_key cell) r.

(** One joined row: key columns and category from the left side, measures
    from the right side (whose product_category was dropped). *)
Definition joined (cell : Z * (Key * option string)) (r : Row) : Row :=
  mkRow (cell_date cell) (fst (cell_key cell)) (snd (cell_key cell))
        (cell_category cell)
        (total_sales_units r) (on_hand_inventory_units r)
        (replenishment_units r) (inventory_pipeline r)
        (units_in_transit r) (units_in_dc r) (units_on_order r)
        (units_under_promotion r) (shelf_capacity r).

(** A left row without a match: every right-hand column null. *)
Definition unmatched (cell : Z * (Key * option string)) : Row :=
  mkRow (cell_date cell) (fst (cell_key cell)) (snd (cell_key cell))
        (cell_category cell)
        None None None None None None None None None.

(** The rows one left row gives in a left outer join.  The matching rows
    are listed in the order of the right side; Spark fixes none. *)
Definition join_cell (right : list Row) (cell : Z * (Key * option string))
  : list Row :=
  match filter (join_on cell) right with
  | [] => [unmatched cell]
  | ms => map (joined cell) ms
  end.

Definition leftouter (left : list (Z * (Key * option string))) (right : list Row)
  : list Row :=
  flat_map (join_cell right) left.

Definition inventory_with_gaps (ds : list Z) (sk : list (Key * option string))
           (inventory_raw : list Row) : list Row :=
  leftouter (crossJoin ds sk) inventory_raw.

(** ** Step 2: imputation *)

(** [ORDER BY date] within a partition: a stable insertion sort. *)
Fixpoint insert_by_date (r : Row) (l : list Row) : list Row :=
  match l with
  | [] => [r]
  | x :: l' =>
      if date r <=? date x then r :: x :: l' else x :: insert_by_date r l'
  end.

Definition order_by_date (l : list Row) : list Row :=
  fold_right insert_by_date [] l.

(** [LAST(c, True)]: the last value of the frame that is not null. *)
Definition last_ignorenulls (l : list (option Z)) : option Z :=
  fold_left (fun acc v => match v with
                          | Some _ => v
                          | None => acc
                          end) l None.

(** [LAST(c, True) OVER(PARTITION BY store_id, sku ORDER BY date)] at the
    rows of key [k] and date [d].  With an ORDER BY and no frame clause the
    frame is RANGE BETWEEN UNBOUNDED PRECEDING AND CURRENT ROW: every row of
    the partition whose date is at most [d]. *)
Definition last_over (c : column) (df : list Row) (k : Key) (d : Z)
  : option Z :=
  let partition := filter (fun x => key_eqb (key_of x) k) df in
  let frame := filter (fun x => date x <=? d) (order_by_date partition) in
  last_ignorenulls (map (col c) frame).

(** The window as a map over the rows: each row keeps its place and gets
    the value of its frame.  (Spark returns the rows by partition and date,
    and leaves the order of rows of one date and key open; the stable sort
    above fixes it as the order of the table.) *)
Definition forward_fill (c : column) (df : list Row) : list Row :=
  map (fun r => with_col c (last_over c df (key_of r) (date r)) r) df.

(** [fillna(value, subset)] on one row and on a DataFrame. *)
Definition fillna_row (value : Z) (subset : list column) (r : Row) : Row :=
  fold_left (fun r c => match col c r with
                        | None => with_col c (Some value) r
                        | Some _ => r
                        end) subset r.

Definition fillna (value : Z) (subset : list column) (df : list Row)
  : list Row :=
  map (fillna_row value subset) df.

(** The imputation cell, for the columns to forward-fill and the columns to
    default to 0. *)
Definition impute (ffill_cols zero_cols : list column) (df : list Row)
  : list Row :=
  fillna 0 zero_cols
         (fold_left (fun df c => forward_fill c df) ffill_cols df).

Definition STATE : list column := [ShelfCapacity; OnHandInventoryUnits].

Definition FLOW : list column :=
  [TotalSalesUnits; UnitsUnderPromotion; UnitsInTransit; UnitsInDc;
   UnitsOnOrder; ReplenishmentUnits; InventoryPipeline].

Definition inventory_cleansed (inventory_with_gaps : list Row) : list Row :=
  impute STATE FLOW inventory_with_gaps.

(** ** Step 3: inventory flags *)

Record FinalRow : Type := mkFinal {
  record : Row;
  promotion_flag : Z;
  replenishment_flag : Z
}.

(** [CASE WHEN c > 0 THEN 1 ELSE 0 END]: a null comparison is not true. *)
Definition case_positive (v : option Z) : Z :=
  match v with
  | Some n => if 0 <? n then 1 else 0
  | None => 0
  end.

Definition flag_row (r : Row) : FinalRow :=
  mkFinal r (case_positive (units_under_promotion r))
          (case_positive (replenishment_units r)).

Definition inventory_final (inventory_cleansed : list Row) : list FinalRow :=
  map flag_row inventory_cleansed.

(** ** The notebook, from the raw inventory table to [inventory_final] *)

(** The grid of step 2 ([inventory_with_gaps] on the dates and store-SKUs of
    the table itself). *)
Definition expand (inventory_raw : list Row) : result (list Row) :=
  ds <- dates inventory_raw ;;
  Ok (inventory_with_gaps ds (store_skus inventory_raw) inventory_raw).

(** The run, with the two literal lists of the imputation cell as
    arguments; the notebook is the run at [STATE] and [FLOW]. *)
Definition run_with (ffill_cols zero_cols : list column)
           (inventory_raw : list Row) : result (list FinalRow) :=
  gaps <- expand inventory_raw ;;
  Ok (inventory_final (impute ffill_cols zero_cols gaps)).

Definition pipeline (inventory_raw : list Row) : result (list FinalRow) :=
  run_with STATE FLOW inventory_raw.

(** A dense output row read back as an inventory record. *)
Definition as_observations (out : list FinalRow) : list Row :=
  map record out.

(** Dates that the run takes: from 1000-01-01 (ordinal 364878), the first
    date that [f.lit] takes, to 9999-12-31 (ordinal 3652059), the last
    [datetime.date]. *)
Definition date_ok (d : Z) : Prop := 364878 <= d <= 3652059.

Definition dates_ok (inventory_raw : list Row) : Prop :=
  Forall (fun r => date_ok (date r)) inventory_raw.

(** No two records of the table share (date, store_id, sku). *)
Definition key3 (r : Row) : Z * Key := (date r, key_of r).

Definition cell_id (cell : Z * (Key * option string)) : Z * Key :=
  (cell_date cell, cell_key cell).

Definition one_per_day (inventory_raw : list Row) : Prop :=
  NoDup (map key3 inventory_raw).


(** ** Notions the properties are stated with *)

(** The calendar days from [lo] to [hi], one after the other. *)
Definition day_span (lo hi : Z) : list Z :=
  map (fun i => lo + Z.of_nat i) (seq 0 (Z.to_nat (hi - lo + 1))).

(** [o] is the last record of key [k] in the order of the table. *)
Definition last_of_key (inventory_raw : list Row) (k : Key) (o : Row)
  : Prop :=
  exists before after,
    inventory_raw = before ++ o :: after /\
    key_of o = k /\
    forall o', In o' after -> key_of o' <> k.

(** [v] is what carry-forward gives for column [c] at key [k] and date [d]
    of [df]: the value of a row of that key, not null, at a date at most
    [d], with only nulls at the later dates up to [d]; null when the key has
    no value up to [d]. *)
Definition carried (c : column) (df : list Row) (k : Key) (d : Z)
           (v : option Z) : Prop :=
  match v with
  | Some x =>
      exists p, In p df /\ key_of p = k /\ date p <= d /\
                col c p = Some x /\
                forall q, In q df -> key_of q = k ->
                          date p < date q <= d -> col c q = None
  | None =>
      forall p, In p df -> key_of p = k -> date p <= d -> col c p = None
  end.

(** [fillna(0)] on one value. *)
Definition zero_filled (v : option Z) : option Z :=
  match v with
  | Some x => Some x
  | None => Some 0
  end.

(** Rows in the order of their dates. *)
Definition by_date (a b : Row) : Prop := date a <= date b.

(** What the cell makes of one row of [df]. *)
Definition cleansed_row (df : list Row) (r : Row) : Row :=
  fillna_row 0 FLOW
    (with_col OnHandInventoryUnits
       (last_over OnHandInventoryUnits df (key_of r) (date r))
       (with_col ShelfCapacity
          (last_over ShelfCapacity df (key_of r) (date r)) r)).

(** ** Example tables *)

(** Store 1, SKU 100, seen on 2021-01-01 (day 737791) and on 2021-01-05
    (day 737795). *)
Definition seen_day1 : Row :=
  mkRow 737791 1 100 (Some "dairy") None (Some 50) None None None None None
        None (Some 10).

Definition seen_day5 : Row :=
  mkRow 737795 1 100 (Some "dairy") (Some 3) (Some 30) (Some 12) None None
        None None (Some 2) None.

Definition two_days : list Row := [seen_day1; seen_day5].

(** A second record of the same store and SKU on 2021-01-05. *)
Definition seen_day5_again : Row :=
  mkRow 737795 1 100 (Some "dairy") (Some 4) (Some 26) None None None None
        None None None.

(** Store 1, SKU 200, first seen on 2021-01-03, its on-hand units
    unknown. *)
Definition first_seen_day3 : Row :=
  mkRow 737793 1 200 (Some "bakery") (Some 1) None None None None None None
        None (Some 6).

(** The same store and SKU under two categories, the later date first. *)
Definition relabelled : list Row :=
  [ mkRow 737792 1 100 (Some "frozen") None (Some 7) None None None None
          None None None;
    mkRow 737791 1 100 (Some "dairy") None (Some 9) None None None None
          None None None ].

(** A record without a category after one with a category. *)
Definition unlabelled_last : list Row :=
  [ seen_day1;
    mkRow 737792 1 100 None None (Some 7) None None None None None None
          None ].

(** A record of 0999-12-31 (day 364877). *)
Definition seen_year_999 : Row :=
  mkRow 364877 1 100 (Some "dairy") None (Some 50) None None None None None
        None (Some 10).

(** * Lemmas *)

(** ** Columns of a row *)

Lemma key_eqb_eq (a b : Key) : key_eqb a b = true <-> a = b.
Proof.
  destruct a as [a1 a2], b as [b1 b2]; unfold key_eqb; simpl.
  rewrite andb_true_iff, !Z.eqb_eq.
  split; [intros [-> ->]; reflexivity | intros E; inversion E; auto].
Qed.

Lemma key_eqb_refl (a : Key) : key_eqb a a = true.
Proof. apply key_eqb_eq; reflexivity. Qed.

Lemma key_eqb_neq (a b : Key) : key_eqb a b = false <-> a <> b.
Proof.
  rewrite <- key_eqb_eq. destruct (key_eqb a b); split; congruence.
Qed.

Lemma col_with_col_same c v r : col c (with_col c v r) = v.
Proof. destruct r, c; reflexivity. Qed.

Lemma col_with_col_other c c' v r :
  c <> c' -> col c (with_col c' v r) = col c r.
Proof. destruct r, c, c'; congruence || reflexivity. Qed.

Lemma date_with_col c v r : date (with_col c v r) = date r.
Proof. destruct r, c; reflexivity. Qed.

Lemma key_of_with_col c v r : key_of (with_col c v r) = key_of r.
Proof. destruct r, c; reflexivity. Qed.

Lemma category_with_col c v r :
  product_category (with_col c v r) = product_category r.
Proof. destruct r, c; reflexivity. Qed.

(** Rows are equal when their key columns, category and measures are. *)
Lemma row_ext (r r' : Row) :
  date r = date r' -> key_of r = key_of r' ->
  product_category r = product_category r' ->
  (forall c, col c r = col c r') -> r = r'.
Proof.
  intros Hd Hk Hc H. destruct r, r'. unfold key_of in Hk. simpl in *.
  inversion Hk; subst.
  pose proof (H TotalSalesUnits). pose proof (H OnHandInventoryUnits).
  pose proof (H ReplenishmentUnits). pose proof (H InventoryPipeline).
  pose proof (H UnitsInTransit). pose proof (H UnitsInDc).
  pose proof (H UnitsOnOrder). pose proof (H UnitsUnderPromotion).
  pose proof (H ShelfCapacity). simpl in *. congruence.
Qed.

(** ** fillna *)

Lemma fillna_row_date v subset r : date (fillna_row v subset r) = date r.
Proof.
  unfold fillna_row. revert r.
  induction subset as [|c cs IH]; intros r; simpl; [reflexivity|].
  rewrite IH. destruct (col c r); [reflexivity | apply date_with_col].
Qed.

Lemma fillna_row_key v subset r : key_of (fillna_row v subset r) = key_of r.
Proof.
  unfold fillna_row. revert r.
  induction subset as [|c cs IH]; intros r; simpl; [reflexivity|].
  rewrite IH. destruct (col c r); [reflexivity | apply key_of_with_col].
Qed.

Lemma fillna_row_category v subset r :
  product_category (fillna_row v subset r) = product_category r.
Proof.
  unfold fillna_row. revert r.
  induction subset as [|c cs IH]; intros r; simpl; [reflexivity|].
  rewrite IH. destruct (col c r); [reflexivity | apply category_with_col].
Qed.

Lemma fillna_row_col v subset c r :
  col c (fillna_row v subset r) =
  if in_dec column_eq_dec c subset
  then match col c r with Some x => Some x | None => Some v end
  else col c r.
Proof.
  unfold fillna_row. revert r.
  induction subset as [|c' cs IH]; intros r; [reflexivity|].
  cbn [fold_left]. rewrite IH. clear IH.
  destruct (in_dec column_eq_dec c cs) as [Hin|Hin];
    destruct (in_dec column_eq_dec c (c' :: cs)) as [Hin'|Hin'];
    try (exfalso; apply Hin'; right; assumption).
  - destruct (col c' r) eqn:E; [reflexivity|].
    destruct (column_eq_dec c c') as [->|Hne].
    + rewrite col_with_col_same, E. reflexivity.
    + rewrite col_with_col_other by assumption. reflexivity.
  - destruct Hin' as [->|Hin']; [|contradiction].
    destruct (col c r) eqn:E; [rewrite E; reflexivity|].
    rewrite col_with_col_same. reflexivity.
  - assert (c <> c') by (intros ->; apply Hin'; left; reflexivity).
    destruct (col c' r); [reflexivity|].
    apply col_with_col_other; assumption.
Qed.

(** ** The date range *)

Section MinMax.

Let step_min (acc : option Z) (d : Z) : option Z :=
  match acc with None => Some d | Some m => Some (Z.min m d) end.

Let step_max (acc : option Z) (d : Z) : option Z :=
  match acc with None => Some d | Some m => Some (Z.max m d) end.

Lemma fold_min_from (l : list Z) (a : Z) :
  exists m, fold_left step_min l (Some a) = Some m /\
            (m = a \/ In m l) /\ m <= a /\ forall x, In x l -> m <= x.
Proof.
  revert a. induction l as [|x l IH]; intros a; simpl.
  - exists a. repeat split; auto; try lia; intros x [].
  - destruct (IH (Z.min a x)) as (m & E & Hin & Hle & Hall).
    exists m. split; [exact E|]. repeat split.
    + destruct Hin as [->|Hin]; [|auto].
      destruct (Z.min_spec a x) as [[_ ->]|[_ ->]]; auto.
    + lia.
    + intros y [<-|Hy]; [lia | auto].
Qed.

Lemma fold_max_from (l : list Z) (a : Z) :
  exists m, fold_left step_max l (Some a) = Some m /\
            (m = a \/ In m l) /\ a <= m /\ forall x, In x l -> x <= m.
Proof.
  revert a. induction l as [|x l IH]; intros a; simpl.
  - exists a. repeat split; auto; try lia; intros x [].
  - destruct (IH (Z.max a x)) as (m & E & Hin & Hle & Hall).
    exists m. split; [exact E|]. repeat split.
    + destruct Hin as [->|Hin]; [|auto].
      destruct (Z.max_spec a x) as [[_ ->]|[_ ->]]; auto.
    + lia.
    + intros y [<-|Hy]; [lia | auto].
Qed.

Lemma agg_min_spec (l : list Z) :
  l <> [] ->
  exists m, agg_min l = Some m /\ In m l /\ forall x, In x l -> m <= x.
Proof.
  destruct l as [|a l]; [congruence|]. intros _.
  destruct (fold_min_from l a) as (m & E & Hin & Hle & Hall).
  exists m. split; [exact E|]. split.
  - destruct Hin as [->|Hin]; [left; reflexivity | right; exact Hin].
  - intros x [<-|Hx]; auto.
Qed.

Lemma agg_max_spec (l : list Z) :
  l <> [] ->
  exists m, agg_max l = Some m /\ In m l /\ forall x, In x l -> x <= m.
Proof.
  destruct l as [|a l]; [congruence|]. intros _.
  destruct (fold_max_from l a) as (m & E & Hin & Hle & Hall).
  exists m. split; [exact E|]. split.
  - destruct Hin as [->|Hin]; [left; reflexivity | right; exact Hin].
  - intros x [<-|Hx]; auto.
Qed.

End MinMax.

Lemma agg_min_unique (l : list Z) (m : Z) :
  In m l -> (forall x, In x l -> m <= x) -> agg_min l = Some m.
Proof.
  intros Hin Hall.
  destruct (agg_min_spec l) as (m' & E & Hin' & Hall').
  { intros ->; destruct Hin. }
  rewrite E. f_equal. apply Z.le_antisymm; auto.
Qed.

Lemma agg_max_unique (l : list Z) (m : Z) :
  In m l -> (forall x, In x l -> x <= m) -> agg_max l = Some m.
Proof.
  intros Hin Hall.
  destruct (agg_max_spec l) as (m' & E & Hin' & Hall').
  { intros ->; destruct Hin. }
  rewrite E. f_equal. apply Z.le_antisymm; auto.
Qed.

Lemma cast_integer_small (id : Z) :
  0 <= id < 2 ^ 31 -> cast_integer id = id.
Proof.
  intros H. unfold cast_integer.
  rewrite Z.mod_small; lia.
Qed.

Lemma lit_date_ok (d : Z) : 364878 <= d -> lit_date d = Ok d.
Proof.
  intros H. unfold lit_date, first_lit_date.
  destruct (d <? 364878) eqn:E; [apply Z.ltb_lt in E; lia | reflexivity].
Qed.

Lemma lit_date_early (d : Z) :
  d < 364878 -> lit_date d = Raise "IllegalArgumentException".
Proof.
  intros H. unfold lit_date, first_lit_date.
  destruct (d <? 364878) eqn:E; [reflexivity | apply Z.ltb_ge in E; lia].
Qed.

Lemma in_day_span (lo hi d : Z) : In d (day_span lo hi) <-> lo <= d <= hi.
Proof.
  unfold day_span. rewrite in_map_iff. split.
  - intros (i & <- & Hi). apply in_seq in Hi. lia.
  - intros H. exists (Z.to_nat (d - lo)). split; [lia|].
    apply in_seq. lia.
Qed.

Lemma length_day_span (lo hi : Z) :
  lo <= hi -> Z.of_nat (length (day_span lo hi)) = hi - lo + 1.
Proof.
  intros H. unfold day_span. rewrite length_map, length_seq. lia.
Qed.


Lemma NoDup_day_span (lo hi : Z) : NoDup (day_span lo hi).
Proof.
  unfold day_span. apply Injective_map_NoDup.
  - intros i j E. lia.
  - apply seq_NoDup.
Qed.

(** The dates of a table that holds a record: every day from the first date
    to the last. *)
Lemma dates_day_span (inventory_raw : list Row) :
  inventory_raw <> [] -> dates_ok inventory_raw ->
  exists lo hi,
    agg_min (map date inventory_raw) = Some lo /\
    agg_max (map date inventory_raw) = Some hi /\
    In lo (map date inventory_raw) /\ In hi (map date inventory_raw) /\
    (forall o, In o inventory_raw -> lo <= date o <= hi) /\
    dates inventory_raw = Ok (day_span lo hi).
Proof.
  intros Hne Hok.
  assert (Hne' : map date inventory_raw <> []).
  { destruct inventory_raw; [congruence | discriminate]. }
  destruct (agg_min_spec _ Hne') as (lo & Elo & Hlo & Hmin).
  destruct (agg_max_spec _ Hne') as (hi & Ehi & Hhi & Hmax).
  exists lo, hi. repeat split; auto.
  - apply Hmin, in_map, H.
  - apply Hmax, in_map, H.
  - apply in_map_iff in Hlo. destruct Hlo as (ol & <- & Hol).
    apply in_map_iff in Hhi. destruct Hhi as (oh & <- & Hoh).
    unfold dates_ok in Hok. rewrite Forall_forall in Hok.
    pose proof (Hok _ Hol) as [Hl1 Hl2].
    pose proof (Hok _ Hoh) as [Hh1 Hh2].
    unfold dates. rewrite Elo, Ehi. cbv zeta.
    rewrite (lit_date_ok (date ol)) by exact Hl1. simpl bind. f_equal.
    unfold day_span, spark_range. rewrite map_map.
    apply map_ext_in. intros i Hi. apply in_seq in Hi.
    rewrite cast_integer_small; [reflexivity|]. lia.
Qed.

(** ** The store-SKU groups *)

Lemma upsert_absent k cat groups :
  ~ In k (map fst groups) -> upsert k cat groups = groups ++ [(k, cat)].
Proof.
  induction groups as [|[k' c'] g IH]; intros Hn; simpl; [reflexivity|].
  simpl in Hn. destruct (key_eqb k k') eqn:E.
  - apply key_eqb_eq in E. exfalso; apply Hn; left; congruence.
  - rewrite IH; [reflexivity|]. intros H; apply Hn; right; exact H.
Qed.

Lemma upsert_keys_present k cat groups :
  In k (map fst groups) -> map fst (upsert k cat groups) = map fst groups.
Proof.
  induction groups as [|[k' c'] g IH]; intros Hin; simpl; [destruct Hin|].
  destruct (key_eqb k k') eqn:E; [reflexivity|]. simpl. f_equal.
  apply IH. destruct Hin as [H|H]; [|exact H].
  simpl in H. apply key_eqb_neq in E. congruence.
Qed.

Lemma upsert_same k cat groups :
  NoDup (map fst groups) -> In (k, cat) groups -> upsert k cat groups = groups.
Proof.
  induction groups as [|[k' c'] g IH]; intros Hnd Hin; simpl; [destruct Hin|].
  simpl in Hnd. inversion Hnd as [|? ? Hnot Hnd']; subst.
  destruct (key_eqb k k') eqn:E.
  - apply key_eqb_eq in E; subst k'.
    destruct Hin as [H|H]; [congruence|].
    exfalso; apply Hnot. apply in_map_iff. exists (k, cat); auto.
  - f_equal. apply IH; [exact Hnd'|].
    destruct Hin as [H|H]; [|exact H].
    apply key_eqb_neq in E. congruence.
Qed.

Lemma NoDup_upsert k cat groups :
  NoDup (map fst groups) -> NoDup (map fst (upsert k cat groups)).
Proof.
  intros Hnd. destruct (in_dec Key_eq_dec k (map fst groups)) as [H|H].
  - rewrite upsert_keys_present; assumption.
  - rewrite upsert_absent by assumption. rewrite map_app. simpl.
    apply NoDup_app; repeat split; auto.
    + constructor; [intros []|constructor].
    + intros x Hx [<-|[]]. contradiction.
Qed.

Lemma in_upsert k cat groups k' cat' :
  NoDup (map fst groups) ->
  In (k', cat') (upsert k cat groups) <->
  (k' = k /\ cat' = cat) \/ (k' <> k /\ In (k', cat') groups).
Proof.
  induction groups as [|[k0 c0] g IH]; intros Hnd; simpl.
  - split.
    + intros [H|[]]. left. split; congruence.
    + intros [[-> ->]|[_ []]]. left; reflexivity.
  - simpl in Hnd. inversion Hnd as [|? ? Hnot Hnd']; subst.
    destruct (key_eqb k k0) eqn:E.
    + apply key_eqb_eq in E; subst k0. simpl. split.
      * intros [H|H].
        -- left. split; congruence.
        -- right. split; [|right; exact H].
           intros ->. apply Hnot. apply in_map_iff. exists (k, cat'); auto.
      * intros [[-> ->]|[Hne [H|H]]]; [left; reflexivity| |right; exact H].
        exfalso; apply Hne; congruence.
    + apply key_eqb_neq in E. simpl. rewrite (IH Hnd'). split.
      * intros [H|[H|H]]; [|left; exact H|right; tauto].
        right. split; [congruence | left; exact H].
      * intros [H|[Hne [H|H]]]; [right; left; exact H|left; exact H|].
        right; right; auto.
Qed.

Lemma store_skus_snoc (l : list Row) (x : Row) :
  store_skus (l ++ [x]) =
  upsert (key_of x) (product_category x) (store_skus l).
Proof. unfold store_skus. rewrite fold_left_app. reflexivity. Qed.

Lemma NoDup_store_skus (inventory_raw : list Row) :
  NoDup (map fst (store_skus inventory_raw)).
Proof.
  induction inventory_raw as [|x l IH] using rev_ind.
  - constructor.
  - rewrite store_skus_snoc. apply NoDup_upsert, IH.
Qed.

(** The key universe: the keys of the table, each once. *)
Lemma store_skus_keys (inventory_raw : list Row) (k : Key) :
  In k (map fst (store_skus inventory_raw)) <->
  In k (map key_of inventory_raw).
Proof.
  induction inventory_raw as [|x l IH] using rev_ind.
  - simpl. tauto.
  - rewrite store_skus_snoc, map_app, in_app_iff. simpl.
    rewrite <- IH.
    destruct (in_dec Key_eq_dec (key_of x)
                     (map fst (store_skus l))) as [H|H].
    + rewrite upsert_keys_present by assumption.
      split; [tauto|]. intros [?|[<-|[]]]; assumption.
    + rewrite upsert_absent by assumption. rewrite map_app, in_app_iff.
      simpl. tauto.
Qed.

(** The category of a group is that of the last record of its key. *)
Lemma store_skus_last (inventory_raw : list Row) (k : Key) (cat : option string) :
  In (k, cat) (store_skus inventory_raw) <->
  exists o, last_of_key inventory_raw k o /\ product_category o = cat.
Proof.
  revert k cat.
  induction inventory_raw as [|x l IH] using rev_ind; intros k cat.
  - simpl. split; [intros []|].
    intros (o & (b & a & E & _) & _). destruct b; discriminate.
  - rewrite store_skus_snoc, in_upsert by apply NoDup_store_skus.
    rewrite IH. split.
    + intros [[-> ->]|[Hne (o & (b & a & E & Hk & Ha) & Hc)]].
      * exists x. split; [|reflexivity].
        exists l, []. repeat split; auto; intros o' [].
      * exists o. split; [|exact Hc].
        exists b, (a ++ [x]). subst l. rewrite <- app_assoc. simpl.
        repeat split; auto.
        intros o' Ho'. apply in_app_iff in Ho'.
        destruct Ho' as [Ho'|[<-|[]]]; [auto | congruence].
    + intros (o & (b & a & E & Hk & Ha) & Hc).
      destruct a as [|y a _] using rev_ind.
      * apply app_inj_tail in E. destruct E as [_ <-]. left; auto.
      * rewrite app_comm_cons, app_assoc in E.
        apply app_inj_tail in E. destruct E as [-> <-].
        right. split.
        -- intros ->. apply (Ha x); [apply in_app_iff; right; left|];
             reflexivity.
        -- exists o. split; [|exact Hc]. exists b, a.
           repeat split; auto. intros o' Ho'. apply Ha.
           apply in_app_iff; left; exact Ho'.
Qed.

(** Folding more records into the groups: records whose key and category
    are already there change nothing. *)
Lemma fold_upsert_absorb (l : list Row) (groups : list (Key * option string)) :
  NoDup (map fst groups) ->
  (forall r, In r l -> In (key_of r, product_category r) groups) ->
  fold_left (fun g r => upsert (key_of r) (product_category r) g) l groups
  = groups.
Proof.
  intros Hnd. induction l as [|x l IH]; intros H; simpl; [reflexivity|].
  rewrite upsert_same; auto.
  - apply IH. intros r Hr. apply H. right; exact Hr.
  - apply H. left; reflexivity.
Qed.

(** A run of records of one new key and one category opens one group. *)
Lemma fold_upsert_block (l : list Row) (groups : list (Key * option string))
      (k : Key) (cat : option string) :
  l <> [] -> NoDup (map fst groups) -> ~ In k (map fst groups) ->
  (forall r, In r l -> key_of r = k /\ product_category r = cat) ->
  fold_left (fun g r => upsert (key_of r) (product_category r) g) l groups
  = groups ++ [(k, cat)].
Proof.
  intros Hne Hnd Hnot H. destruct l as [|x l]; [congruence|]. simpl.
  destruct (H x (or_introl eq_refl)) as [-> ->].
  rewrite upsert_absent by assumption.
  apply fold_upsert_absorb.
  - rewrite map_app. simpl. apply NoDup_app; repeat split; auto.
    + constructor; [intros []|constructor].
    + intros y Hy [<-|[]]. contradiction.
  - intros r Hr. destruct (H r (or_intror Hr)) as [-> ->].
    apply in_app_iff. right; left; reflexivity.
Qed.

(** ** The grid: cross join and left outer join *)

Lemma filter_none {A : Type} (p : A -> bool) (l : list A) :
  (forall y, In y l -> p y = false) -> filter p l = [].
Proof.
  induction l as [|a l IH]; intros H; simpl; [reflexivity|].
  rewrite (H a (or_introl eq_refl)). apply IH.
  intros y Hy. apply H. right; exact Hy.
Qed.

Lemma filter_all {A : Type} (p : A -> bool) (l : list A) :
  (forall y, In y l -> p y = true) -> filter p l = l.
Proof.
  induction l as [|a l IH]; intros H; simpl; [reflexivity|].
  rewrite (H a (or_introl eq_refl)). f_equal. apply IH.
  intros y Hy. apply H. right; exact Hy.
Qed.

Lemma filter_unique {A B : Type} (f : A -> B) (p : A -> bool)
      (l : list A) (x : A) :
  NoDup (map f l) -> In x l ->
  (forall y, In y l -> (p y = true <-> f y = f x)) ->
  filter p l = [x].
Proof.
  induction l as [|a l IH]; intros Hnd Hin Hp; [destruct Hin|].
  simpl in Hnd. inversion Hnd as [|? ? Hnot Hnd']; subst. simpl.
  assert (Hrest : forall y, In y l -> f y = f x -> In (f x) (map f l)).
  { intros y Hy E. rewrite <- E. apply in_map, Hy. }
  destruct Hin as [->|Hin].
  - destruct (p x) eqn:E.
    + f_equal. apply filter_none.
      intros y Hy. destruct (p y) eqn:Ey; [|reflexivity].
      exfalso; apply Hnot. apply (Hrest y Hy).
      apply Hp; [right; exact Hy | exact Ey].
    + assert (p x = true) by (apply Hp; [left|]; reflexivity). congruence.
  - destruct (p a) eqn:E.
    + exfalso; apply Hnot.
      rewrite (proj1 (Hp a (or_introl eq_refl)) E). apply in_map, Hin.
    + apply IH; auto. intros y Hy. apply Hp. right; exact Hy.
Qed.

Lemma filter_at_most_one {A B : Type} (f : A -> B) (p : A -> bool)
      (l : list A) (b : B) :
  NoDup (map f l) ->
  (forall y, In y l -> p y = true -> f y = b) ->
  (length (filter p l) <= 1)%nat.
Proof.
  induction l as [|a l IH]; intros Hnd Hp; simpl; [lia|].
  simpl in Hnd. inversion Hnd as [|? ? Hnot Hnd']; subst.
  destruct (p a) eqn:E.
  - rewrite filter_none; [simpl; lia|].
    intros y Hy. destruct (p y) eqn:Ey; [|reflexivity].
    exfalso; apply Hnot.
    rewrite (Hp a (or_introl eq_refl) E), <- (Hp y (or_intror Hy) Ey).
    apply in_map, Hy.
  - apply IH; auto. intros y Hy. apply Hp. right; exact Hy.
Qed.

Lemma at_cell_true d k r : at_cell d k r = true <-> key3 r = (d, k).
Proof.
  unfold at_cell, key3. rewrite andb_true_iff, Z.eqb_eq, key_eqb_eq.
  split; [intros [-> ->]; reflexivity | intros E; inversion E; auto].
Qed.

Lemma key_of_joined cell r : key_of (joined cell r) = cell_key cell.
Proof. unfold key_of; simpl. destruct (cell_key cell); reflexivity. Qed.

Lemma key_of_unmatched cell : key_of (unmatched cell) = cell_key cell.
Proof. unfold key_of; simpl. destruct (cell_key cell); reflexivity. Qed.

Lemma join_cell_nonempty raw cell : join_cell raw cell <> [].
Proof.
  unfold join_cell. destruct (filter (join_on cell) raw); discriminate.
Qed.

(** Where the rows of a cell come from: a null row when no record matches,
    else one row per matching record, with its measures. *)
Lemma in_join_cell raw cell r :
  In r (join_cell raw cell) <->
  (filter (join_on cell) raw = [] /\ r = unmatched cell) \/
  (exists o, In o raw /\ join_on cell o = true /\ r = joined cell o).
Proof.
  unfold join_cell. destruct (filter (join_on cell) raw) as [|m ms] eqn:E.
  - simpl. split.
    + intros [<-|[]]. left; auto.
    + intros [[_ ->]|(o & Ho & Hj & _)]; [left; reflexivity|].
      assert (Hin : In o (filter (join_on cell) raw))
        by (apply filter_In; auto).
      rewrite E in Hin. destruct Hin.
  - rewrite <- E, in_map_iff. split.
    + intros (o & <- & Ho). apply filter_In in Ho. right. exists o. tauto.
    + intros [[H _]|(o & Ho & Hj & ->)]; [rewrite E in H; discriminate|].
      exists o. split; [reflexivity | apply filter_In; auto].
Qed.

Lemma join_cell_key3 raw cell r :
  In r (join_cell raw cell) -> key3 r = cell_id cell.
Proof.
  intros H. apply in_join_cell in H. unfold key3, cell_id.
  destruct H as [[_ ->]|(o & _ & _ & ->)].
  - rewrite key_of_unmatched. reflexivity.
  - rewrite key_of_joined. reflexivity.
Qed.

Lemma join_cell_category raw cell r :
  In r (join_cell raw cell) -> product_category r = cell_category cell.
Proof.
  intros H. apply in_join_cell in H.
  destruct H as [[_ ->]|(o & _ & _ & ->)]; reflexivity.
Qed.

Lemma col_joined cell o c : col c (joined cell o) = col c o.
Proof. destruct c; reflexivity. Qed.

(** The rows of the join at a date and key are the rows of the cells with
    that date and key. *)
Lemma filter_at_cell_leftouter d k cells raw :
  filter (at_cell d k) (leftouter cells raw) =
  leftouter (filter (fun c => (d =? cell_date c) && key_eqb k (cell_key c))
                    cells) raw.
Proof.
  unfold leftouter. induction cells as [|c cs IH]; simpl; [reflexivity|].
  rewrite filter_app, IH.
  assert (Hblock : forall r, In r (join_cell raw c) ->
            at_cell d k r = (d =? cell_date c) && key_eqb k (cell_key c)).
  { intros r Hr. apply join_cell_key3 in Hr. unfold key3, cell_id in Hr.
    unfold at_cell. inversion Hr. reflexivity. }
  destruct ((d =? cell_date c) && key_eqb k (cell_key c)) eqn:E; simpl.
  - f_equal. apply filter_all. exact Hblock.
  - rewrite filter_none; [reflexivity | exact Hblock].
Qed.

Lemma in_crossJoin ds sk cell :
  In cell (crossJoin ds sk) <-> In (cell_date cell) ds /\ In (snd cell) sk.
Proof.
  unfold crossJoin. rewrite in_flat_map. split.
  - intros (d & Hd & H). apply in_map_iff in H.
    destruct H as (ks & <- & Hks). simpl. auto.
  - intros [Hd Hks]. exists (cell_date cell). split; [exact Hd|].
    apply in_map_iff. exists (snd cell). split; [|exact Hks].
    destruct cell; reflexivity.
Qed.

Lemma length_crossJoin ds sk :
  length (crossJoin ds sk) = (length ds * length sk)%nat.
Proof.
  unfold crossJoin. induction ds as [|d ds IH]; simpl; [reflexivity|].
  rewrite length_app, length_map, IH. reflexivity.
Qed.

Lemma NoDup_crossJoin ds sk :
  NoDup ds -> NoDup (map fst sk) -> NoDup (map cell_id (crossJoin ds sk)).
Proof.
  intros Hds Hsk. unfold crossJoin.
  induction Hds as [|d ds Hnot Hds IH]; simpl; [constructor|].
  rewrite map_app, map_map. apply NoDup_app.
  - unfold cell_id, cell_date, cell_key. simpl.
    rewrite <- (map_map fst (fun k => (d, k))).
    apply Injective_map_NoDup; [|exact Hsk].
    intros a b E. congruence.
  - exact IH.
  - intros id H1 H2. apply in_map_iff in H1. destruct H1 as (ks & <- & _).
    apply in_map_iff in H2. destruct H2 as (cell & E & Hc).
    apply in_flat_map in Hc. destruct Hc as (d' & Hd' & Hc).
    apply in_map_iff in Hc. destruct Hc as (ks' & <- & _).
    unfold cell_id, cell_date in E. simpl in E.
    apply Hnot. congruence.
Qed.

(** The grid at (d, k), for a date of the range and a key of the universe:
    the rows of that one cell. *)
Lemma grid_at_cell ds sk raw d k cat :
  NoDup ds -> NoDup (map fst sk) -> In d ds -> In (k, cat) sk ->
  filter (at_cell d k) (inventory_with_gaps ds sk raw) =
  join_cell raw (d, (k, cat)).
Proof.
  intros Hds Hsk Hd Hk. unfold inventory_with_gaps.
  rewrite filter_at_cell_leftouter.
  rewrite (filter_unique cell_id _ _ (d, (k, cat))).
  - unfold leftouter. simpl. apply app_nil_r.
  - apply NoDup_crossJoin; assumption.
  - apply in_crossJoin. simpl. auto.
  - intros c _. unfold cell_id. simpl.
    rewrite andb_true_iff, Z.eqb_eq, key_eqb_eq.
    split; [intros [-> ->]; reflexivity | intros E; inversion E; auto].
Qed.

(** Outside the range or the universe the grid has no row. *)
Lemma in_grid ds sk raw r :
  In r (inventory_with_gaps ds sk raw) ->
  In (date r) ds /\ In (key_of r, product_category r) sk.
Proof.
  unfold inventory_with_gaps, leftouter. rewrite in_flat_map.
  intros (cell & Hc & Hr). apply in_crossJoin in Hc.
  pose proof (join_cell_key3 _ _ _ Hr) as E.
  pose proof (join_cell_category _ _ _ Hr) as E'.
  unfold key3, cell_id in E. inversion E as [[E1 E2]].
  rewrite E', E1, E2. destruct Hc as [Hd Hk]. split; [exact Hd|].
  destruct cell as [d [k cat]]. exact Hk.
Qed.

Lemma length_leftouter_one cells raw :
  (forall c, In c cells -> length (join_cell raw c) = 1%nat) ->
  length (leftouter cells raw) = length cells.
Proof.
  unfold leftouter. induction cells as [|c cs IH]; intros H; simpl;
    [reflexivity|].
  rewrite length_app, H, IH; auto.
  - intros c' Hc'. apply H. right; exact Hc'.
  - left; reflexivity.
Qed.

Lemma length_join_cell_one raw cell :
  one_per_day raw -> length (join_cell raw cell) = 1%nat.
Proof.
  intros Hnd. unfold join_cell.
  pose proof (filter_at_most_one key3 (join_on cell) raw (cell_id cell)
                Hnd) as H.
  destruct (filter (join_on cell) raw) as [|m ms]; [reflexivity|].
  rewrite length_map. simpl in *.
  assert (length ms <= 0)%nat; [|lia].
  apply le_S_n. apply H.
  intros y _ Hy. apply at_cell_true in Hy. exact Hy.
Qed.

(** ** The window: ORDER BY date and LAST ... IGNORE NULLS *)

Lemma in_insert_by_date r l x :
  In x (insert_by_date r l) <-> x = r \/ In x l.
Proof.
  induction l as [|a l IH]; simpl.
  - split; [intros [<-|[]]; auto | intros [->|[]]; auto].
  - destruct (date r <=? date a); simpl; [split; intuition congruence|].
    rewrite IH. split; intuition congruence.
Qed.

Lemma in_order_by_date l x : In x (order_by_date l) <-> In x l.
Proof.
  induction l as [|a l IH]; simpl; [tauto|].
  rewrite in_insert_by_date, IH. split; intuition congruence.
Qed.

Lemma sorted_insert_by_date r l :
  StronglySorted by_date l -> StronglySorted by_date (insert_by_date r l).
Proof.
  induction 1 as [|a l Hs IH Hall]; simpl.
  - constructor; constructor.
  - destruct (date r <=? date a) eqn:E.
    + apply Z.leb_le in E. constructor; [constructor; assumption|].
      constructor; [exact E|].
      rewrite Forall_forall in Hall |- *. intros x Hx.
      specialize (Hall x Hx). unfold by_date in *. lia.
    + apply Z.leb_gt in E. constructor; [exact IH|].
      rewrite Forall_forall in Hall |- *. intros x Hx.
      apply in_insert_by_date in Hx. destruct Hx as [->|Hx]; [|auto].
      unfold by_date. lia.
Qed.

Lemma sorted_order_by_date l : StronglySorted by_date (order_by_date l).
Proof.
  induction l as [|a l IH]; simpl; [constructor|].
  apply sorted_insert_by_date, IH.
Qed.

Lemma sorted_filter (p : Row -> bool) l :
  StronglySorted by_date l -> StronglySorted by_date (filter p l).
Proof.
  induction 1 as [|a l Hs IH Hall]; simpl; [constructor|].
  destruct (p a); [|exact IH]. constructor; [exact IH|].
  rewrite Forall_forall in Hall |- *. intros x Hx.
  apply filter_In in Hx. apply Hall, Hx.
Qed.

Lemma sorted_app_inv l1 l2 x y :
  StronglySorted by_date (l1 ++ l2) -> In x l1 -> In y l2 -> date x <= date y.
Proof.
  induction l1 as [|a l1 IH]; intros Hs Hx Hy; [destruct Hx|].
  simpl in Hs. apply StronglySorted_inv in Hs. destruct Hs as [Hs Hall].
  destruct Hx as [->|Hx]; [|auto].
  rewrite Forall_forall in Hall. apply Hall, in_app_iff. right; exact Hy.
Qed.

Section Forall2Rows.

Variable R : Row -> Row -> Prop.
Hypothesis R_date : forall x y, R x y -> date x = date y.

Lemma Forall2_insert_by_date r r' l l' :
  R r r' -> Forall2 R l l' ->
  Forall2 R (insert_by_date r l) (insert_by_date r' l').
Proof.
  intros Hr H. induction H as [|a a' l l' Ha H IH]; simpl.
  - constructor; [exact Hr | constructor].
  - rewrite (R_date _ _ Hr), (R_date _ _ Ha).
    destruct (date r' <=? date a'); repeat (constructor; auto).
Qed.

Lemma Forall2_order_by_date l l' :
  Forall2 R l l' -> Forall2 R (order_by_date l) (order_by_date l').
Proof.
  induction 1; simpl; [constructor|].
  apply Forall2_insert_by_date; assumption.
Qed.

End Forall2Rows.

Lemma Forall2_filter {A B : Type} (R R' : A -> B -> Prop)
      (p : A -> bool) (q : B -> bool) l l' :
  (forall x y, R x y -> p x = q y) ->
  (forall x y, R x y -> p x = true -> R' x y) ->
  Forall2 R l l' -> Forall2 R' (filter p l) (filter q l').
Proof.
  intros Hpq HR H. induction H as [|a b l l' Hab H IH]; simpl;
    [constructor|].
  rewrite <- (Hpq _ _ Hab). destruct (p a) eqn:E; [|exact IH].
  constructor; [apply HR; assumption | exact IH].
Qed.

Lemma Forall2_map_eq {A B C : Type} (R : A -> B -> Prop)
      (f : A -> C) (g : B -> C) l l' :
  (forall x y, R x y -> f x = g y) -> Forall2 R l l' -> map f l = map g l'.
Proof.
  intros Hfg H. induction H as [|a b l l' Hab H IH]; simpl; [reflexivity|].
  rewrite (Hfg _ _ Hab), IH. reflexivity.
Qed.

Lemma Forall2_map_self {A B : Type} (R : A -> B -> Prop) (f : A -> B) l :
  (forall x, R x (f x)) -> Forall2 R l (map f l).
Proof. intros H. induction l; simpl; constructor; auto. Qed.

Lemma Forall2_map_in {A B : Type} (R : A -> B -> Prop) (f : A -> B) l :
  (forall x, In x l -> R x (f x)) -> Forall2 R l (map f l).
Proof.
  induction l as [|a l IH]; intros H; simpl; constructor.
  - apply H. left; reflexivity.
  - apply IH. intros x Hx. apply H. right; exact Hx.
Qed.

Lemma case_positive_one v :
  case_positive v = 1 <-> exists n, v = Some n /\ 0 < n.
Proof.
  unfold case_positive. destruct v as [n|].
  - destruct (0 <? n) eqn:E.
    + apply Z.ltb_lt in E. split; [intros _; exists n; auto | reflexivity].
    + apply Z.ltb_ge in E. split; [discriminate|].
      intros (m & Hm & Hpos). inversion Hm. lia.
  - split; [discriminate | intros (n & Hn & _); discriminate].
Qed.

(** *** The last value that is not null *)

Lemma last_ignorenulls_snoc l v :
  last_ignorenulls (l ++ [v]) =
  match v with Some _ => v | None => last_ignorenulls l end.
Proof. unfold last_ignorenulls. rewrite fold_left_app. reflexivity. Qed.

Lemma last_ignorenulls_None l :
  last_ignorenulls l = None <-> forall v, In v l -> v = None.
Proof.
  induction l as [|v l IH] using rev_ind.
  - split; [intros _ v [] | reflexivity].
  - rewrite last_ignorenulls_snoc. destruct v as [x|].
    + split; [discriminate|]. intros H.
      apply (H (Some x)), in_app_iff. right; left; reflexivity.
    + rewrite IH. split.
      * intros H v Hv. apply in_app_iff in Hv.
        destruct Hv as [Hv|[<-|[]]]; auto.
      * intros H v Hv. apply H, in_app_iff. left; exact Hv.
Qed.

Lemma last_ignorenulls_Some l x :
  last_ignorenulls l = Some x <->
  exists l1 l2, l = l1 ++ Some x :: l2 /\ forall v, In v l2 -> v = None.
Proof.
  revert x. induction l as [|v l IH] using rev_ind; intros x.
  - split; [discriminate|]. intros (l1 & l2 & E & _).
    destruct l1; discriminate.
  - rewrite last_ignorenulls_snoc. destruct v as [y|].
    + split.
      * intros E. inversion E; subst. exists l, []. split; [reflexivity|].
        intros v [].
      * intros (l1 & l2 & E & H).
        destruct l2 as [|w l2 _] using rev_ind.
        -- apply app_inj_tail in E. destruct E as [_ E]. exact E.
        -- rewrite app_comm_cons, app_assoc in E.
           apply app_inj_tail in E. destruct E as [_ <-].
           assert (Some y = None); [|discriminate].
           apply H, in_app_iff. right; left; reflexivity.
    + rewrite IH. split.
      * intros (l1 & l2 & -> & H). exists l1, (l2 ++ [None]).
        rewrite <- app_assoc. split; [reflexivity|].
        intros v Hv. apply in_app_iff in Hv.
        destruct Hv as [Hv|[<-|[]]]; auto.
      * intros (l1 & l2 & E & H).
        destruct l2 as [|w l2 _] using rev_ind.
        -- apply app_inj_tail in E. destruct E as [_ E]. discriminate.
        -- rewrite app_comm_cons, app_assoc in E.
           apply app_inj_tail in E. destruct E as [-> _].
           exists l1, l2. split; [reflexivity|].
           intros v Hv. apply H, in_app_iff. left; exact Hv.
Qed.

(** *** What the window returns *)

Lemma key3_inv r r' :
  key3 r = key3 r' -> date r = date r' /\ key_of r = key_of r'.
Proof.
  intros E. split;
    [exact (f_equal fst E) | exact (f_equal snd E)].
Qed.

(** The frame of key [k] at date [d]: the rows of [df] with that key and a
    date at most [d], and nothing else. *)
Lemma in_frame df k d x :
  In x (filter (fun x => date x <=? d)
               (order_by_date (filter (fun x => key_eqb (key_of x) k) df)))
  <-> In x df /\ key_of x = k /\ date x <= d.
Proof.
  rewrite filter_In, in_order_by_date, filter_In, key_eqb_eq, Z.leb_le.
  tauto.
Qed.

Lemma last_over_carried c df k d : carried c df k d (last_over c df k d).
Proof.
  unfold last_over.
  set (F := filter (fun x => date x <=? d)
                   (order_by_date (filter (fun x => key_eqb (key_of x) k) df))).
  assert (HF : forall x, In x F <-> In x df /\ key_of x = k /\ date x <= d)
    by (intros x; apply in_frame).
  assert (Hs : StronglySorted by_date F)
    by (apply sorted_filter, sorted_order_by_date).
  destruct (last_ignorenulls (map (col c) F)) as [x|] eqn:E; simpl.
  - apply last_ignorenulls_Some in E. destruct E as (l1 & l2 & E & Hnull).
    apply map_eq_app in E. destruct E as (F1 & F2' & EF & _ & E2).
    apply map_eq_cons in E2. destruct E2 as (p & F2 & -> & Hp & E2).
    assert (Hin : In p F).
    { rewrite EF. apply in_app_iff. right; left; reflexivity. }
    apply HF in Hin. destruct Hin as (Hpdf & Hpk & Hpd).
    exists p. repeat split; auto.
    intros q Hq Hqk Hqd.
    assert (Hq' : In q F) by (apply HF; repeat split; auto; lia).
    rewrite EF in Hq'. apply in_app_iff in Hq'.
    destruct Hq' as [Hq'|[->|Hq']].
    + rewrite EF in Hs.
      pose proof (sorted_app_inv F1 (p :: F2) q p Hs Hq' (or_introl eq_refl)).
      lia.
    + lia.
    + apply Hnull. rewrite <- E2. apply in_map, Hq'.
  - intros p Hp Hk Hd. rewrite last_ignorenulls_None in E.
    apply E, in_map, HF. auto.
Qed.

(** The window looks at the rows of its own partition only. *)
Lemma last_over_partition c df k d :
  last_over c (filter (fun x => key_eqb (key_of x) k) df) k d =
  last_over c df k d.
Proof.
  unfold last_over. do 3 f_equal. f_equal.
  induction df as [|a df IH]; simpl; [reflexivity|].
  destruct (key_eqb (key_of a) k) eqn:E; simpl; rewrite ?E, IH; reflexivity.
Qed.

(** It depends on the keys, the dates and the column itself, not on the
    other columns. *)
Lemma last_over_ext c df df' k d :
  Forall2 (fun r r' => key3 r = key3 r' /\ col c r = col c r') df df' ->
  last_over c df k d = last_over c df' k d.
Proof.
  intros H. unfold last_over. f_equal.
  apply Forall2_map_eq
    with (R := fun r r' => key3 r = key3 r' /\ col c r = col c r');
    [tauto|].
  apply Forall2_filter with (R := fun r r' => key3 r = key3 r' /\
                                              col c r = col c r'); auto.
  { intros x y [E _]. apply key3_inv in E. destruct E as [-> _].
    reflexivity. }
  apply Forall2_order_by_date.
  { intros x y [E _]. apply key3_inv in E. tauto. }
  apply Forall2_filter with (R := fun r r' => key3 r = key3 r' /\
                                              col c r = col c r'); auto.
  intros x y [E _]. apply key3_inv in E. destruct E as [_ ->]. reflexivity.
Qed.

(** A second pass over a column that was carried forward finds the same
    values. *)
Lemma last_over_filled c df df' k d :
  Forall2 (fun r r' => key3 r' = key3 r /\
                       col c r' = last_over c df (key_of r) (date r))
          df df' ->
  last_over c df' k d = last_over c df k d.
Proof.
  intros H.
  set (S := order_by_date (filter (fun x => key_eqb (key_of x) k) df)).
  set (V := fun e => last_ignorenulls
                       (map (col c) (filter (fun x => date x <=? e) S))).
  assert (HV : forall e, last_over c df k e = V e) by reflexivity.
  set (R1 := fun r r' : Row => key3 r' = key3 r /\ col c r' = V (date r)).
  assert (Hd : forall x y, R1 x y -> date x = date y).
  { intros x y [E _]. apply key3_inv in E. symmetry. tauto. }
  assert (HF : Forall2 R1
                 (filter (fun x => date x <=? d) S)
                 (filter (fun x => date x <=? d)
                    (order_by_date
                       (filter (fun x => key_eqb (key_of x) k) df')))).
  { apply Forall2_filter with (R := R1); auto.
    { intros x y Hxy. rewrite (Hd _ _ Hxy). reflexivity. }
    apply Forall2_order_by_date; [exact Hd|].
    eapply Forall2_filter; [| |exact H].
    - intros x y [E _]. apply key3_inv in E. destruct E as [_ ->].
      reflexivity.
    - intros x y [E Hc] Hk. apply key_eqb_eq in Hk. split; [exact E|].
      rewrite Hc, Hk. apply HV. }
  rewrite HV. unfold last_over at 1.
  rewrite <- (Forall2_map_eq R1 (fun r => V (date r)) (col c)
                (filter (fun x => date x <=? d) S));
    [|intros x y [_ E]; symmetry; exact E | exact HF].
  clear HF H Hd R1 HV df'.
  assert (Hs : StronglySorted by_date (filter (fun x => date x <=? d) S))
    by (apply sorted_filter, sorted_order_by_date).
  assert (Hsub : forall e, e <= d -> forall x,
             In x (filter (fun x => date x <=? e) S) ->
             In x (filter (fun x => date x <=? d) S)).
  { intros e He x Hx. apply filter_In in Hx. apply filter_In.
    destruct Hx as [Hx Hle]. split; [exact Hx|].
    apply Z.leb_le in Hle. apply Z.leb_le. lia. }
  destruct (filter (fun x => date x <=? d) S) as [|rl F _] eqn:EF
    using rev_ind.
  - unfold V. rewrite EF. reflexivity.
  - assert (Hrl : V (date rl) = V d).
    { unfold V. rewrite EF. f_equal. f_equal.
      assert (Hrld : date rl <= d).
      { assert (Hin : In rl (filter (fun x => date x <=? d) S)).
        { rewrite EF. apply in_app_iff. right; left; reflexivity. }
        apply filter_In in Hin. apply Z.leb_le, Hin. }
      rewrite <- EF.
      transitivity (filter (fun x => date x <=? date rl)
                           (filter (fun x => date x <=? d) S)).
      - clear - Hrld. induction S as [|a S IH]; simpl; [reflexivity|].
        destruct (date a <=? date rl) eqn:E1;
          destruct (date a <=? d) eqn:E2; simpl; rewrite ?E1, IH; auto.
        apply Z.leb_le in E1. apply Z.leb_gt in E2. lia.
      - apply filter_all. rewrite EF. intros y Hy. apply Z.leb_le.
        apply in_app_iff in Hy. destruct Hy as [Hy|[<-|[]]]; [|lia].
        apply (sorted_app_inv F [rl] y rl Hs Hy). left; reflexivity. }
    rewrite map_app. simpl. rewrite last_ignorenulls_snoc, Hrl.
    destruct (V d) as [x|] eqn:EV; [reflexivity|].
    apply last_ignorenulls_None. intros v Hv.
    apply in_map_iff in Hv. destruct Hv as (y & <- & Hy).
    unfold V. apply last_ignorenulls_None. intros w Hw.
    apply in_map_iff in Hw. destruct Hw as (z & <- & Hz).
    unfold V in EV. rewrite EF in EV.
    rewrite last_ignorenulls_None in EV. apply EV, in_map.
    apply Hsub with (e := date y); [|exact Hz].
    assert (Hin : In y (F ++ [rl])) by (apply in_app_iff; left; exact Hy).
    rewrite <- EF in Hin. apply filter_In in Hin. apply Z.leb_le, Hin.
Qed.

Lemma key3_inv' r (id : Z * Key) :
  key3 r = id -> date r = fst id /\ key_of r = snd id.
Proof. intros <-. split; reflexivity. Qed.

(** ** The imputation cell *)

Lemma key3_with_col c v r : key3 (with_col c v r) = key3 r.
Proof. unfold key3. rewrite date_with_col, key_of_with_col. reflexivity. Qed.

Lemma key3_fillna_row v subset r : key3 (fillna_row v subset r) = key3 r.
Proof. unfold key3. rewrite fillna_row_date, fillna_row_key. reflexivity. Qed.

Lemma inventory_cleansed_rows df :
  inventory_cleansed df = map (cleansed_row df) df.
Proof.
  unfold inventory_cleansed, impute, STATE, fillna. cbn [fold_left].
  unfold forward_fill at 1. rewrite map_map.
  unfold forward_fill at 2. rewrite map_map.
  apply map_ext. intros r. unfold cleansed_row.
  rewrite key_of_with_col, date_with_col. do 2 f_equal.
  symmetry. apply last_over_ext. apply Forall2_map_self.
  intros x. rewrite key3_with_col. split; [reflexivity|].
  rewrite col_with_col_other by discriminate. reflexivity.
Qed.

Lemma cleansed_row_key3 df r : key3 (cleansed_row df r) = key3 r.
Proof.
  unfold cleansed_row. rewrite key3_fillna_row, !key3_with_col. reflexivity.
Qed.

Lemma cleansed_row_category df r :
  product_category (cleansed_row df r) = product_category r.
Proof.
  unfold cleansed_row. rewrite fillna_row_category, !category_with_col.
  reflexivity.
Qed.

Lemma STATE_FLOW_partition :
  NoDup (STATE ++ FLOW) /\ forall c, In c (STATE ++ FLOW).
Proof.
  split.
  - unfold STATE, FLOW. simpl.
    repeat (constructor; [simpl; intuition discriminate|]). constructor.
  - intros c. unfold STATE, FLOW. destruct c; simpl; tauto.
Qed.

Lemma STATE_not_FLOW c : In c STATE -> ~ In c FLOW.
Proof.
  unfold STATE, FLOW. simpl. intros [<-|[<-|[]]]; intuition discriminate.
Qed.

Lemma cleansed_row_state df r c :
  In c STATE ->
  col c (cleansed_row df r) = last_over c df (key_of r) (date r).
Proof.
  intros Hc. unfold cleansed_row. rewrite fillna_row_col.
  destruct (in_dec column_eq_dec c FLOW) as [Hf|_];
    [exfalso; exact (STATE_not_FLOW _ Hc Hf)|].
  destruct Hc as [<-|[<-|[]]].
  - rewrite col_with_col_other by discriminate. apply col_with_col_same.
  - apply col_with_col_same.
Qed.

Lemma cleansed_row_flow df r c :
  In c FLOW -> col c (cleansed_row df r) = zero_filled (col c r).
Proof.
  intros Hc. unfold cleansed_row. rewrite fillna_row_col.
  destruct (in_dec column_eq_dec c FLOW) as [_|Hn]; [|contradiction].
  assert (c <> OnHandInventoryUnits /\ c <> ShelfCapacity) as [H1 H2].
  { split; intros ->; apply (STATE_not_FLOW _) in Hc; auto;
      unfold STATE; simpl; auto. }
  rewrite !col_with_col_other by assumption. reflexivity.
Qed.

(** Imputing an imputed DataFrame changes nothing. *)
Lemma inventory_cleansed_idem df :
  inventory_cleansed (inventory_cleansed df) = inventory_cleansed df.
Proof.
  rewrite (inventory_cleansed_rows (inventory_cleansed df)).
  rewrite (inventory_cleansed_rows df) at 2 3.
  rewrite map_map. apply map_ext. intros r.
  set (C := inventory_cleansed df).
  pose proof (cleansed_row_key3 C (cleansed_row df r)) as E3.
  apply key3_inv in E3. destruct E3 as [Ed Ek].
  apply row_ext; auto using cleansed_row_category.
  intros c. pose proof (proj2 STATE_FLOW_partition c) as Hc.
  apply in_app_iff in Hc. destruct Hc as [Hc|Hc].
  - rewrite !cleansed_row_state by assumption.
    pose proof (cleansed_row_key3 df r) as E3.
    apply key3_inv in E3. destruct E3 as [-> ->].
    apply last_over_filled. unfold C. rewrite inventory_cleansed_rows.
    apply Forall2_map_self. intros x. split.
    + apply cleansed_row_key3.
    + apply cleansed_row_state, Hc.
  - rewrite !cleansed_row_flow by assumption.
    destruct (col c r); reflexivity.
Qed.

(** ** The run as a whole *)

Lemma as_observations_final df : as_observations (inventory_final df) = df.
Proof.
  unfold as_observations, inventory_final. rewrite map_map. apply map_id.
Qed.

Lemma filter_at_cell_map (f : Row -> Row) d k l :
  (forall x, key3 (f x) = key3 x) ->
  filter (at_cell d k) (map f l) = map f (filter (at_cell d k) l).
Proof.
  intros Hf. induction l as [|a l IH]; simpl; [reflexivity|].
  assert (E : at_cell d k (f a) = at_cell d k a).
  { unfold at_cell. destruct (key3_inv _ _ (Hf a)) as [-> ->]. reflexivity. }
  rewrite E. destruct (at_cell d k a); simpl; rewrite IH; reflexivity.
Qed.

Lemma store_skus_nonempty raw : raw <> [] -> store_skus raw <> [].
Proof.
  destruct raw as [|o raw]; [congruence|]. intros _ E.
  assert (H : In (key_of o) (map fst (store_skus (o :: raw)))).
  { apply store_skus_keys. left; reflexivity. }
  rewrite E in H. destruct H.
Qed.

(** The grid of a table that holds a record. *)
Lemma expand_grid (raw : list Row) :
  raw <> [] -> dates_ok raw ->
  exists lo hi,
    In lo (map date raw) /\ In hi (map date raw) /\
    (forall o, In o raw -> lo <= date o <= hi) /\
    dates raw = Ok (day_span lo hi) /\
    expand raw =
    Ok (inventory_with_gaps (day_span lo hi) (store_skus raw) raw).
Proof.
  intros Hne Hok.
  destruct (dates_day_span _ Hne Hok) as (lo & hi & _ & _ & Hlo & Hhi & Hb & E).
  exists lo, hi. repeat split; auto; try apply Hb; auto.
  unfold expand. rewrite E. reflexivity.
Qed.

(** Every cell of the grid holds a row. *)
Lemma grid_cell_inhabited ds sk raw d ks :
  In d ds -> In ks sk ->
  exists r, In r (inventory_with_gaps ds sk raw) /\
            key3 r = (d, fst ks) /\ product_category r = snd ks.
Proof.
  intros Hd Hk.
  destruct (join_cell raw (d, ks)) as [|r rs] eqn:E;
    [exfalso; exact (join_cell_nonempty _ _ E)|].
  assert (Hr : In r (join_cell raw (d, ks))) by (rewrite E; left; reflexivity).
  exists r. split; [|split].
  - unfold inventory_with_gaps, leftouter. apply in_flat_map.
    exists (d, ks). split; [|exact Hr]. apply in_crossJoin. simpl. auto.
  - apply (join_cell_key3 _ _ _ Hr).
  - apply (join_cell_category _ _ _ Hr).
Qed.

Lemma flat_map_ext_in {A B : Type} (f g : A -> list B) (l : list A) :
  (forall a, In a l -> f a = g a) -> flat_map f l = flat_map g l.
Proof.
  induction l as [|a l IH]; intros H; simpl; [reflexivity|].
  rewrite (H a (or_introl eq_refl)), IH; [reflexivity|].
  intros b Hb. apply H. right; exact Hb.
Qed.

Lemma map_flat_map {A B C : Type} (f : B -> C) (g : A -> list B) l :
  map f (flat_map g l) = flat_map (fun a => map f (g a)) l.
Proof.
  induction l as [|a l IH]; simpl; [reflexivity|].
  rewrite map_app, IH. reflexivity.
Qed.

Lemma join_cell_matched right cell ms :
  filter (join_on cell) right = ms -> ms <> [] ->
  join_cell right cell = map (joined cell) ms.
Proof.
  intros E Hne. unfold join_cell. rewrite E.
  destruct ms; [congruence | reflexivity].
Qed.

(** Joining the grid with its own rows (whatever their measures became)
    gives these rows again. *)
Lemma leftouter_own_rows ds sk raw (f : Row -> Row) :
  NoDup ds -> NoDup (map fst sk) ->
  (forall r, key3 (f r) = key3 r /\
             product_category (f r) = product_category r) ->
  inventory_with_gaps ds sk (map f (inventory_with_gaps ds sk raw)) =
  map f (inventory_with_gaps ds sk raw).
Proof.
  intros Hds Hsk Hf.
  set (G := inventory_with_gaps ds sk raw).
  unfold inventory_with_gaps at 1. unfold leftouter.
  unfold G at 2. unfold inventory_with_gaps, leftouter.
  rewrite map_flat_map. apply flat_map_ext_in.
  intros [d [k cat]] Hc. apply in_crossJoin in Hc. simpl in Hc.
  destruct Hc as [Hd Hk].
  rewrite (join_cell_matched (map f G) (d, (k, cat))
             (map f (join_cell raw (d, (k, cat))))).
  - rewrite map_map. apply map_ext_in.
    intros x Hx. destruct (Hf x) as [H3 Hcat].
    pose proof (join_cell_key3 _ _ _ Hx) as Hx3.
    pose proof (join_cell_category _ _ _ Hx) as Hxc.
    rewrite <- H3 in Hx3. rewrite <- Hcat in Hxc.
    apply key3_inv' in Hx3.
    apply row_ext.
    + simpl. symmetry. apply Hx3.
    + rewrite key_of_joined. symmetry. apply Hx3.
    + simpl. symmetry. exact Hxc.
    + intros c. apply col_joined.
  - unfold join_on, cell_date, cell_key. simpl.
    rewrite filter_at_cell_map by (intros x; apply Hf).
    unfold G. rewrite (grid_at_cell _ _ raw _ _ _ Hds Hsk Hd Hk).
    reflexivity.
  - intros E. apply map_eq_nil in E. exact (join_cell_nonempty _ _ E).
Qed.

(** The groups of the first day of the grid are the store-SKUs, in their
    order. *)
Lemma store_skus_first_day raw (f : Row -> Row) d0 sk acc :
  (forall r, key3 (f r) = key3 r /\
             product_category (f r) = product_category r) ->
  NoDup (map fst (acc ++ sk)) ->
  fold_left (fun g r => upsert (key_of r) (product_category r) g)
            (map f (flat_map (join_cell raw) (map (fun ks => (d0, ks)) sk)))
            acc
  = acc ++ sk.
Proof.
  intros Hf. revert acc. induction sk as [|ks sk IH]; intros acc Hnd; simpl.
  - symmetry. apply app_nil_r.
  - rewrite map_app, fold_left_app.
    rewrite (fold_upsert_block _ acc (fst ks) (snd ks)).
    + rewrite IH.
      * rewrite <- app_assoc. simpl. destruct ks; reflexivity.
      * rewrite <- app_assoc. simpl. destruct ks; exact Hnd.
    + intros E. apply map_eq_nil in E. exact (join_cell_nonempty _ _ E).
    + rewrite map_app in Hnd. apply NoDup_app_remove_r in Hnd. exact Hnd.
    + rewrite map_app in Hnd. simpl in Hnd.
      apply NoDup_remove_2 in Hnd. intros H. apply Hnd.
      apply in_app_iff. left; exact H.
    + intros r Hr. apply in_map_iff in Hr. destruct Hr as (x & <- & Hx).
      destruct (Hf x) as [H3 Hc]. rewrite Hc.
      rewrite (join_cell_category _ _ _ Hx).
      destruct (key3_inv _ _ H3) as [_ ->].
      pose proof (f_equal snd (join_cell_key3 _ _ _ Hx)) as E.
      simpl in E. rewrite E. split; reflexivity.
Qed.

Lemma store_skus_grid ds sk raw (f : Row -> Row) :
  ds <> [] -> NoDup (map fst sk) ->
  (forall r, key3 (f r) = key3 r /\
             product_category (f r) = product_category r) ->
  store_skus (map f (inventory_with_gaps ds sk raw)) = sk.
Proof.
  intros Hne Hsk Hf. destruct ds as [|d0 ds]; [congruence|].
  unfold store_skus, inventory_with_gaps, leftouter, crossJoin.
  simpl flat_map. rewrite flat_map_app, map_app, fold_left_app.
  rewrite (store_skus_first_day raw f d0 sk [] Hf Hsk). simpl.
  apply fold_upsert_absorb; [exact Hsk|].
  intros r Hr. apply in_map_iff in Hr. destruct Hr as (x & <- & Hx).
  destruct (Hf x) as [H3 Hc]. rewrite Hc.
  apply key3_inv in H3. destruct H3 as [_ ->].
  apply (in_grid ds sk raw x). exact Hx.
Qed.

(** Expanding the rows of a grid (whatever their measures became) gives
    these rows again: the grid is complete. *)
Lemma expand_fixed raw (f : Row -> Row) grid :
  raw <> [] -> dates_ok raw ->
  (forall r, key3 (f r) = key3 r /\
             product_category (f r) = product_category r) ->
  expand raw = Ok grid ->
  expand (map f grid) = Ok (map f grid).
Proof.
  intros Hne Hok Hf E.
  destruct (expand_grid raw Hne Hok) as (lo & hi & Hlo & Hhi & Hb & Ed & Eg).
  rewrite Eg in E. inversion E as [EG]. clear E.
  set (sk := store_skus raw) in *.
  set (ds := day_span lo hi) in *.
  assert (Hlohi : lo <= hi).
  { apply in_map_iff in Hlo. destruct Hlo as (o & <- & Ho).
    apply (Hb o Ho). }
  assert (Hsk : NoDup (map fst sk)) by apply NoDup_store_skus.
  assert (Hds : NoDup ds) by apply NoDup_day_span.
  assert (Hrow : forall r, In r (map f (inventory_with_gaps ds sk raw)) ->
                           lo <= date r <= hi).
  { intros r Hr. apply in_map_iff in Hr. destruct Hr as (x & <- & Hx).
    destruct (key3_inv _ _ (proj1 (Hf x))) as [-> _].
    apply in_grid in Hx. apply in_day_span, Hx. }
  assert (Hcell : forall d, In d ds ->
            In d (map date (map f (inventory_with_gaps ds sk raw)))).
  { intros d Hd. destruct sk as [|ks sk'] eqn:Esk.
    - exfalso. apply (store_skus_nonempty raw Hne). exact Esk.
    - destruct (grid_cell_inhabited ds (ks :: sk') raw d ks Hd
                  (or_introl eq_refl)) as (r & Hr & H3 & _).
      rewrite map_map. apply in_map_iff. exists r. split; [|exact Hr].
      destruct (key3_inv _ _ (proj1 (Hf r))) as [-> _].
      apply key3_inv' in H3. apply H3. }
  assert (Hne' : map f (inventory_with_gaps ds sk raw) <> []).
  { intros E. specialize (Hcell lo). rewrite E in Hcell.
    apply Hcell, in_day_span. lia. }
  assert (Hok' : dates_ok (map f (inventory_with_gaps ds sk raw))).
  { apply Forall_forall. intros r Hr. specialize (Hrow r Hr).
    unfold dates_ok in Hok. rewrite Forall_forall in Hok.
    apply in_map_iff in Hlo. destruct Hlo as (ol & El & Hol).
    apply in_map_iff in Hhi. destruct Hhi as (oh & Eh & Hoh).
    pose proof (Hok _ Hol) as [? ?]. pose proof (Hok _ Hoh) as [? ?].
    unfold date_ok. lia. }
  destruct (dates_day_span _ Hne' Hok')
    as (lo' & hi' & Emin & Emax & _ & _ & _ & Ed').
  assert (Elo : lo' = lo).
  { rewrite (agg_min_unique _ lo) in Emin; [congruence | |].
    - apply Hcell, in_day_span. lia.
    - intros x Hx. apply in_map_iff in Hx. destruct Hx as (r & <- & Hr).
      apply Hrow, Hr. }
  assert (Ehi : hi' = hi).
  { rewrite (agg_max_unique _ hi) in Emax; [congruence | |].
    - apply Hcell, in_day_span. lia.
    - intros x Hx. apply in_map_iff in Hx. destruct Hx as (r & <- & Hr).
      apply Hrow, Hr. }
  subst lo' hi'. unfold expand. rewrite Ed'. simpl. f_equal.
  fold ds. rewrite store_skus_grid; auto.
  - apply leftouter_own_rows; auto.
  - intros E. assert (H : In lo ds) by (apply in_day_span; lia).
    rewrite E in H. destruct H.
Qed.

Lemma pipeline_inv raw out :
  pipeline raw = Ok out ->
  exists grid, expand raw = Ok grid /\
               out = inventory_final (inventory_cleansed grid).
Proof.
  unfold pipeline, run_with, bind. destruct (expand raw) as [grid|e];
    [|discriminate].
  intros E. inversion E. exists grid. split; reflexivity.
Qed.

Lemma pipeline_of_grid raw grid :
  expand raw = Ok grid ->
  pipeline raw = Ok (inventory_final (inventory_cleansed grid)).
Proof. intros E. unfold pipeline, run_with. rewrite E. reflexivity. Qed.

Lemma two_days_ok : two_days <> [] /\ dates_ok two_days /\ one_per_day two_days.
Proof.
  split; [discriminate|]. split.
  - repeat constructor; simpl; lia.
  - unfold one_per_day. simpl.
    repeat constructor; simpl; intuition discriminate.
Qed.

(** ** Two runs of the pipeline *)

(** Store 1, SKU 100 seen on 2021-01-01 (50 on hand, capacity 10) and on
    2021-01-05 (30 on hand): the three days between carry 50 and 10, the
    last day has 30 and the capacity carried since the first; the sales of
    the gap days are 0. *)
Example run_two_days :
  exists out,
    pipeline two_days = Ok out /\
    map (fun fr => (date (record fr),
                    on_hand_inventory_units (record fr),
                    shelf_capacity (record fr),
                    total_sales_units (record fr),
                    promotion_flag fr, replenishment_flag fr)) out
    = [ (737791, Some 50, Some 10, Some 0, 0, 0);
        (737792, Some 50, Some 10, Some 0, 0, 0);
        (737793, Some 50, Some 10, Some 0, 0, 0);
        (737794, Some 50, Some 10, Some 0, 0, 0);
        (737795, Some 30, Some 10, Some 3, 1, 1) ].
Proof. eexists. split; reflexivity. Qed.

(** A key first seen on the third day of the range, its on-hand units null:
    the on-hand units of that key stay null (no earlier value), its
    capacity is null before the third day and carried after, its sales are
    0 on the days without a record. *)
Example run_first_seen_day3 :
  exists out,
    pipeline (two_days ++ [first_seen_day3]) = Ok out /\
    map (fun fr => (date (record fr),
                    on_hand_inventory_units (record fr),
                    shelf_capacity (record fr),
                    total_sales_units (record fr)))
        (filter (fun fr => key_eqb (key_of (record fr)) (1, 200)) out)
    = [ (737791, None, None, Some 0);
        (737792, None, None, Some 0);
        (737793, None, Some 6, Some 1);
        (737794, None, Some 6, Some 0);
        (737795, None, Some 6, Some 0) ].
Proof. eexists. split; reflexivity. Qed.

(** [f.last] keeps nulls: a key whose last record has no category has none
    in the store-SKUs and in its output rows. *)
Example run_null_category :
  store_skus unlabelled_last = [((1, 100), None)] /\
  exists out,
    pipeline unlabelled_last = Ok out /\
    map (fun fr => product_category (record fr)) out = [None; None].
Proof. split; [reflexivity|]. eexists. split; reflexivity. Qed.

(** A table that starts before 1000-01-01 does not run. *)
Example run_year_999 :
  pipeline [seen_year_999; seen_day1] = Raise "IllegalArgumentException".
Proof. reflexivity. Qed.

(** ** The properties *)

(** C1. Carry-forward of on_hand_inventory_units and shelf_capacity.  The
    imputation keeps every row, with its date and key, and gives each of
    the two columns the most recent value that is not null among the rows
    of the same key at an earlier or equal date; where that key has no such
    value the column stays null.  The value is the one the window finds in
    the partition of the key alone, so no value of another key is ever
    used. *)
Theorem state_carry_forward (df : list Row) (i : nat) (r : Row) :
  nth_error df i = Some r ->
  exists r',
    nth_error (inventory_cleansed df) i = Some r' /\
    key3 r' = key3 r /\
    carried OnHandInventoryUnits df (key_of r) (date r)
            (on_hand_inventory_units r') /\
    carried ShelfCapacity df (key_of r) (date r) (shelf_capacity r') /\
    on_hand_inventory_units r' =
    last_over OnHandInventoryUnits
              (filter (fun x => key_eqb (key_of x) (key_of r)) df)
              (key_of r) (date r) /\
    shelf_capacity r' =
    last_over ShelfCapacity
              (filter (fun x => key_eqb (key_of x) (key_of r)) df)
              (key_of r) (date r).
Proof.
  intros Hi. exists (cleansed_row df r).
  assert (Hoh : on_hand_inventory_units (cleansed_row df r) =
                last_over OnHandInventoryUnits df (key_of r) (date r)).
  { apply (cleansed_row_state df r OnHandInventoryUnits).
    right; left; reflexivity. }
  assert (Hsc : shelf_capacity (cleansed_row df r) =
                last_over ShelfCapacity df (key_of r) (date r)).
  { apply (cleansed_row_state df r ShelfCapacity). left; reflexivity. }
  split; [|split; [|split; [|split; [|split]]]].
  - rewrite inventory_cleansed_rows, nth_error_map, Hi. reflexivity.
  - apply cleansed_row_key3.
  - rewrite Hoh. apply last_over_carried.
  - rewrite Hsc. apply last_over_carried.
  - rewrite Hoh. symmetry. apply last_over_partition.
  - rewrite Hsc. symmetry. apply last_over_partition.
Qed.

Lemma state_carry_forward_witness :
  nth_error [seen_day5; seen_day1] 0 = Some seen_day5 /\
  exists r',
    nth_error (inventory_cleansed [seen_day5; seen_day1]) 0 = Some r' /\
    key3 r' = key3 seen_day5 /\
    carried OnHandInventoryUnits [seen_day5; seen_day1] (key_of seen_day5)
            (date seen_day5) (on_hand_inventory_units r') /\
    carried ShelfCapacity [seen_day5; seen_day1] (key_of seen_day5)
            (date seen_day5) (shelf_capacity r') /\
    on_hand_inventory_units r' =
    last_over OnHandInventoryUnits
              (filter (fun x => key_eqb (key_of x) (key_of seen_day5))
                      [seen_day5; seen_day1])
              (key_of seen_day5) (date seen_day5) /\
    shelf_capacity r' =
    last_over ShelfCapacity
              (filter (fun x => key_eqb (key_of x) (key_of seen_day5))
                      [seen_day5; seen_day1])
              (key_of seen_day5) (date seen_day5).
Proof.
  split; [reflexivity|].
  apply (state_carry_forward [seen_day5; seen_day1] 0 seen_day5).
  reflexivity.
Defined.

(** C3. Zero-fill of total_sales_units, units_under_promotion,
    units_in_transit, units_in_dc, units_on_order, replenishment_units and
    inventory_pipeline.  The imputation gives each of these columns of
    every row the value the row had, or 0 where it was null: a function of
    that row's own value, whatever the key, the date or the other rows.  So
    none of them is null in an output row of the pipeline. *)
Theorem flow_zero_fill (df : list Row) :
  Forall2 (fun r r' =>
             total_sales_units r' = zero_filled (total_sales_units r) /\
             units_under_promotion r' =
             zero_filled (units_under_promotion r) /\
             units_in_transit r' = zero_filled (units_in_transit r) /\
             units_in_dc r' = zero_filled (units_in_dc r) /\
             units_on_order r' = zero_filled (units_on_order r) /\
             replenishment_units r' = zero_filled (replenishment_units r) /\
             inventory_pipeline r' = zero_filled (inventory_pipeline r))
          df (inventory_cleansed df) /\
  forall raw out fr,
    pipeline raw = Ok out -> In fr out ->
    total_sales_units (record fr) <> None /\
    units_under_promotion (record fr) <> None /\
    units_in_transit (record fr) <> None /\
    units_in_dc (record fr) <> None /\
    units_on_order (record fr) <> None /\
    replenishment_units (record fr) <> None /\
    inventory_pipeline (record fr) <> None.
Proof.
  assert (Hrow : forall g r,
            total_sales_units (cleansed_row g r) =
            zero_filled (total_sales_units r) /\
            units_under_promotion (cleansed_row g r) =
            zero_filled (units_under_promotion r) /\
            units_in_transit (cleansed_row g r) =
            zero_filled (units_in_transit r) /\
            units_in_dc (cleansed_row g r) = zero_filled (units_in_dc r) /\
            units_on_order (cleansed_row g r) =
            zero_filled (units_on_order r) /\
            replenishment_units (cleansed_row g r) =
            zero_filled (replenishment_units r) /\
            inventory_pipeline (cleansed_row g r) =
            zero_filled (inventory_pipeline r)).
  { intros g r.
    pose proof (fun c => cleansed_row_flow g r c) as H.
    repeat split.
    - apply (H TotalSalesUnits). unfold FLOW; simpl; tauto.
    - apply (H UnitsUnderPromotion). unfold FLOW; simpl; tauto.
    - apply (H UnitsInTransit). unfold FLOW; simpl; tauto.
    - apply (H UnitsInDc). unfold FLOW; simpl; tauto.
    - apply (H UnitsOnOrder). unfold FLOW; simpl; tauto.
    - apply (H ReplenishmentUnits). unfold FLOW; simpl; tauto.
    - apply (H InventoryPipeline). unfold FLOW; simpl; tauto. }
  split.
  - rewrite inventory_cleansed_rows. apply Forall2_map_self.
    intros r. apply Hrow.
  - intros raw out fr E Hfr.
    destruct (pipeline_inv raw out E) as (grid & _ & ->).
    unfold inventory_final in Hfr. rewrite inventory_cleansed_rows in Hfr.
    rewrite map_map in Hfr. apply in_map_iff in Hfr.
    destruct Hfr as (r & <- & _). cbn [record flag_row].
    destruct (Hrow grid r) as (H1 & H2 & H3 & H4 & H5 & H6 & H7).
    rewrite H1, H2, H3, H4, H5, H6, H7.
    assert (Hz : forall v, zero_filled v <> None)
      by (intros [x|]; discriminate).
    repeat split; apply Hz.
Qed.



(** C6. The inventory flags.  The output rows of the pipeline are the rows
    of the imputed grid, one for one, each with its two flags; the
    units_under_promotion and replenishment_units of an imputed row are not
    null, promotion_flag is 1 exactly when units_under_promotion > 0 and 0
    otherwise, replenishment_flag is 1 exactly when replenishment_units > 0
    and 0 otherwise.  On any DataFrame the flags of a row are computed from
    that row alone, a null column giving the flag 0. *)
Theorem flags_iff_positive (raw : list Row) (out : list FinalRow) :
  pipeline raw = Ok out ->
  (exists grid,
     expand raw = Ok grid /\
     Forall2 (fun r fr =>
                record fr = r /\
                exists u p,
                  units_under_promotion r = Some u /\
                  replenishment_units r = Some p /\
                  (promotion_flag fr = 1 <-> 0 < u) /\
                  (promotion_flag fr = 0 <-> u <= 0) /\
                  (replenishment_flag fr = 1 <-> 0 < p) /\
                  (replenishment_flag fr = 0 <-> p <= 0))
             (inventory_cleansed grid) out) /\
  forall df,
    Forall2 (fun r fr =>
               record fr = r /\
               (promotion_flag fr = 1 <->
                exists u, units_under_promotion r = Some u /\ 0 < u) /\
               (promotion_flag fr = 1 \/ promotion_flag fr = 0) /\
               (replenishment_flag fr = 1 <->
                exists p, replenishment_units r = Some p /\ 0 < p) /\
               (replenishment_flag fr = 1 \/ replenishment_flag fr = 0))
            df (inventory_final df).
Proof.
  intros E.
  assert (Hcase : forall n, (case_positive (Some n) = 1 <-> 0 < n) /\
                            (case_positive (Some n) = 0 <-> n <= 0)).
  { intros n. unfold case_positive. destruct (0 <? n) eqn:En.
    - apply Z.ltb_lt in En. split; split; intros; lia || reflexivity.
    - apply Z.ltb_ge in En. split; split; intros; lia || reflexivity. }
  assert (H01 : forall v, case_positive v = 1 \/ case_positive v = 0).
  { intros [n|]; simpl; [destruct (0 <? n)|]; auto. }
  split.
  - destruct (pipeline_inv raw out E) as (grid & Eg & ->).
    exists grid. split; [exact Eg|].
    unfold inventory_final. apply Forall2_map_in.
    intros r Hr. split; [reflexivity|].
    rewrite inventory_cleansed_rows in Hr. apply in_map_iff in Hr.
    destruct Hr as (r0 & <- & _). cbn [flag_row promotion_flag
                                         replenishment_flag].
    pose proof (cleansed_row_flow grid r0 UnitsUnderPromotion
                  ltac:(unfold FLOW; simpl; tauto)) as Hu.
    pose proof (cleansed_row_flow grid r0 ReplenishmentUnits
                  ltac:(unfold FLOW; simpl; tauto)) as Hp.
    cbn [col] in Hu, Hp. rewrite Hu, Hp.
    destruct (units_under_promotion r0) as [u|];
      destruct (replenishment_units r0) as [p|]; cbn [zero_filled];
      eexists; eexists; (split; [reflexivity|]); (split; [reflexivity|]);
      repeat split; try apply Hcase.
  - intros df. unfold inventory_final. apply Forall2_map_self.
    intros r. cbn [flag_row record promotion_flag replenishment_flag].
    split; [reflexivity|]. split; [apply case_positive_one|].
    split; [apply H01|]. split; [apply case_positive_one | apply H01].
Qed.

Lemma flags_iff_positive_witness :
  exists out,
    pipeline two_days = Ok out /\
    (exists grid,
       expand two_days = Ok grid /\
       Forall2 (fun r fr =>
                  record fr = r /\
                  exists u p,
                    units_under_promotion r = Some u /\
                    replenishment_units r = Some p /\
                    (promotion_flag fr = 1 <-> 0 < u) /\
                    (promotion_flag fr = 0 <-> u <= 0) /\
                    (replenishment_flag fr = 1 <-> 0 < p) /\
                    (replenishment_flag fr = 0 <-> p <= 0))
               (inventory_cleansed grid) out) /\
    forall df,
      Forall2 (fun r fr =>
                 record fr = r /\
                 (promotion_flag fr = 1 <->
                  exists u, units_under_promotion r = Some u /\ 0 < u) /\
                 (promotion_flag fr = 1 \/ promotion_flag fr = 0) /\
                 (replenishment_flag fr = 1 <->
                  exists p, replenishment_units r = Some p /\ 0 < p) /\
                 (replenishment_flag fr = 1 \/ replenishment_flag fr = 0))
              df (inventory_final df).
Proof.
  eexists. split; [reflexivity|].
  apply (flags_iff_positive two_days). reflexivity.
Defined.

Lemma flow_zero_fill_witness :
  Forall2 (fun r r' =>
             total_sales_units r' = zero_filled (total_sales_units r) /\
             units_under_promotion r' =
             zero_filled (units_under_promotion r) /\
             units_in_transit r' = zero_filled (units_in_transit r) /\
             units_in_dc r' = zero_filled (units_in_dc r) /\
             units_on_order r' = zero_filled (units_on_order r) /\
             replenishment_units r' = zero_filled (replenishment_units r) /\
             inventory_pipeline r' = zero_filled (inventory_pipeline r))
          two_days (inventory_cleansed two_days) /\
  forall raw out fr,
    pipeline raw = Ok out -> In fr out ->
    total_sales_units (record fr) <> None /\
    units_under_promotion (record fr) <> None /\
    units_in_transit (record fr) <> None /\
    units_in_dc (record fr) <> None /\
    units_on_order (record fr) <> None /\
    replenishment_units (record fr) <> None /\
    inventory_pipeline (record fr) <> None.
Proof. apply (flow_zero_fill two_days). Defined.

(** For a table that holds a record and has no two records of the same
    (date, store_id, sku), the output of the pipeline has exactly one row
    for every date of the range and every key of the store-SKUs, and no
    other row: |dates| x |store-SKUs| rows, where
    |dates| = (end_date - start_date) + 1. *)
Theorem one_row_per_cell (raw : list Row) :
  raw <> [] -> dates_ok raw -> one_per_day raw ->
  exists lo hi ds out,
    agg_min (map date raw) = Some lo /\ agg_max (map date raw) = Some hi /\
    dates raw = Ok ds /\ pipeline raw = Ok out /\
    Z.of_nat (length ds) = (hi - lo) + 1 /\
    length out = (length ds * length (store_skus raw))%nat /\
    (forall d k, In d ds -> In k (map fst (store_skus raw)) ->
       length (filter (at_cell d k) (as_observations out)) = 1%nat) /\
    (forall fr, In fr out ->
       In (date (record fr)) ds /\
       In (key_of (record fr)) (map fst (store_skus raw))).
Proof.
  intros Hne Hok Hone.
  destruct (dates_day_span _ Hne Hok)
    as (lo & hi & Emin & Emax & Hlo & Hhi & Hb & Ed).
  set (ds := day_span lo hi) in *. set (sk := store_skus raw).
  set (grid := inventory_with_gaps ds sk raw).
  assert (Eg : expand raw = Ok grid)
    by (unfold expand; rewrite Ed; reflexivity).
  exists lo, hi, ds, (inventory_final (inventory_cleansed grid)).
  split; [exact Emin|]. split; [exact Emax|]. split; [exact Ed|].
  split; [apply pipeline_of_grid, Eg|]. split; [|split; [|split]].
  - apply length_day_span.
    apply in_map_iff in Hlo. destruct Hlo as (o & <- & Ho). apply (Hb o Ho).
  - unfold inventory_final. rewrite length_map, inventory_cleansed_rows.
    rewrite length_map. unfold grid, inventory_with_gaps.
    rewrite length_leftouter_one, length_crossJoin; [reflexivity|].
    intros c _. apply length_join_cell_one, Hone.
  - intros d k Hd Hk. apply in_map_iff in Hk.
    destruct Hk as ([k' cat] & Ek & Hk). simpl in Ek. subst k'.
    rewrite as_observations_final, inventory_cleansed_rows.
    rewrite filter_at_cell_map by apply cleansed_row_key3.
    rewrite length_map. unfold grid.
    rewrite (grid_at_cell ds sk raw d k cat); auto.
    + apply length_join_cell_one, Hone.
    + apply NoDup_day_span.
    + apply NoDup_store_skus.
  - intros fr Hfr. unfold inventory_final in Hfr.
    rewrite inventory_cleansed_rows, map_map in Hfr.
    apply in_map_iff in Hfr. destruct Hfr as (r & <- & Hr). simpl.
    destruct (key3_inv _ _ (cleansed_row_key3 grid r)) as [-> ->].
    apply in_grid in Hr. destruct Hr as [Hd Hk]. split; [exact Hd|].
    apply in_map_iff. exists (key_of r, product_category r). auto.
Qed.

Lemma one_row_per_cell_witness :
  two_days <> [] /\ dates_ok two_days /\ one_per_day two_days /\
  exists lo hi ds out,
    agg_min (map date two_days) = Some lo /\
    agg_max (map date two_days) = Some hi /\
    dates two_days = Ok ds /\ pipeline two_days = Ok out /\
    Z.of_nat (length ds) = (hi - lo) + 1 /\
    length out = (length ds * length (store_skus two_days))%nat /\
    (forall d k, In d ds -> In k (map fst (store_skus two_days)) ->
       length (filter (at_cell d k) (as_observations out)) = 1%nat) /\
    (forall fr, In fr out ->
       In (date (record fr)) ds /\
       In (key_of (record fr)) (map fst (store_skus two_days))).
Proof.
  split; [apply two_days_ok|]. split; [apply two_days_ok|].
  split; [apply two_days_ok|].
  apply (one_row_per_cell two_days); apply two_days_ok.
Defined.

(** C2.  The code breaks it.  The notebook says of its join that it
    generates one record for each store-SKU for each date in range; yet two
    records of one store and SKU on the same day give two output rows for
    that date and key, and two rows in all where
    |dates| x |store-SKUs| = 1. *)
Theorem two_records_one_day_two_rows :
  [seen_day5; seen_day5_again] <> [] /\
  dates_ok [seen_day5; seen_day5_again] /\
  exists ds out,
    dates [seen_day5; seen_day5_again] = Ok ds /\
    pipeline [seen_day5; seen_day5_again] = Ok out /\
    (length ds * length (store_skus [seen_day5; seen_day5_again]))%nat
    = 1%nat /\
    length out = 2%nat /\
    length (filter (at_cell 737795 (1, 100)) (as_observations out)) = 2%nat.
Proof.
  split; [discriminate|]. split; [repeat constructor; simpl; lia|].
  eexists. eexists. split; [reflexivity|]. split; [reflexivity|].
  repeat split.
Qed.

Lemma length_filter_split {A : Type} (p : A -> bool) (l : list A) :
  (length (filter p l) + length (filter (fun x => negb (p x)) l))%nat
  = length l.
Proof.
  induction l as [|a l IH]; simpl; [reflexivity|].
  destruct (p a); simpl; lia.
Qed.

Lemma filter_filter_implied {A : Type} (p q : A -> bool) (l : list A) :
  (forall x, In x l -> p x = true -> q x = true) ->
  filter p (filter q l) = filter p l.
Proof.
  induction l as [|a l IH]; intros H; simpl; [reflexivity|].
  assert (IH' : filter p (filter q l) = filter p l).
  { apply IH. intros x Hx. apply H. right; exact Hx. }
  destruct (q a) eqn:Eq; simpl.
  - rewrite IH'. reflexivity.
  - destruct (p a) eqn:Ep; [|exact IH'].
    rewrite (H a (or_introl eq_refl) Ep) in Eq. discriminate.
Qed.

Lemma join_on_true cell o : join_on cell o = true <-> key3 o = cell_id cell.
Proof. unfold join_on. apply at_cell_true. Qed.

Lemma length_join_cell_ge raw cell :
  (length (filter (join_on cell) raw) <= length (join_cell raw cell))%nat.
Proof.
  unfold join_cell. destruct (filter (join_on cell) raw) as [|m ms];
    [simpl; lia|].
  rewrite length_map. lia.
Qed.

(** A left outer join loses no right-hand row whose key is on the left. *)
Lemma length_leftouter_ge cells raw :
  NoDup (map cell_id cells) ->
  (forall o, In o raw -> In (key3 o) (map cell_id cells)) ->
  (length raw <= length (leftouter cells raw))%nat.
Proof.
  revert raw. induction cells as [|c cs IH]; intros raw Hnd Hin.
  - destruct raw as [|o raw]; [simpl; lia|].
    destruct (Hin o (or_introl eq_refl)).
  - simpl in Hnd. inversion Hnd as [|? ? Hnot Hnd']; subst.
    set (rest := filter (fun o => negb (join_on c o)) raw).
    assert (Erest : leftouter cs raw = leftouter cs rest).
    { unfold leftouter. apply flat_map_ext_in. intros c' Hc'.
      unfold join_cell, rest. rewrite filter_filter_implied; [reflexivity|].
      intros o _ Ho. apply join_on_true in Ho.
      destruct (join_on c o) eqn:E; [|reflexivity].
      apply join_on_true in E. exfalso. apply Hnot.
      rewrite <- E, Ho. apply in_map, Hc'. }
    assert (Hle : (length rest <= length (leftouter cs rest))%nat).
    { apply IH; [exact Hnd'|]. intros o Ho. apply filter_In in Ho.
      destruct Ho as [Ho Hn]. destruct (Hin o Ho) as [E|H]; [|exact H].
      symmetry in E. apply join_on_true in E. rewrite E in Hn.
      discriminate. }
    unfold leftouter in *. simpl. rewrite length_app, Erest.
    pose proof (length_join_cell_ge raw c).
    pose proof (length_filter_split (join_on c) raw). fold rest in H0.
    lia.
Qed.

(** C4, as the code has it.  For a table that holds a record, every record
    has a row of the grid with its date, store_id and sku and its measures
    unchanged: none is dropped.  Where a record is the only one of the
    table at its date and key, exactly one row of the grid matches its
    (date, store_id, sku), and it carries the record's measures.  The grid
    has at least as many rows as the table, not always more. *)
Theorem observations_kept (raw : list Row) :
  raw <> [] -> dates_ok raw ->
  exists grid,
    expand raw = Ok grid /\
    (forall o, In o raw ->
       exists r, In r grid /\ key3 r = key3 o /\
                 forall c, col c r = col c o) /\
    (forall o, In o raw ->
       filter (at_cell (date o) (key_of o)) raw = [o] ->
       exists r, filter (at_cell (date o) (key_of o)) grid = [r] /\
                 forall c, col c r = col c o) /\
    (length raw <= length grid)%nat.
Proof.
  intros Hne Hok.
  destruct (expand_grid raw Hne Hok) as (lo & hi & Hlo & Hhi & Hb & Ed & Eg).
  set (ds := day_span lo hi) in *. set (sk := store_skus raw) in *.
  assert (Hds : NoDup ds) by apply NoDup_day_span.
  assert (Hsk : NoDup (map fst sk)) by apply NoDup_store_skus.
  assert (Hcell : forall o, In o raw ->
            exists cat, In (date o) ds /\ In (key_of o, cat) sk /\
              filter (at_cell (date o) (key_of o))
                     (inventory_with_gaps ds sk raw) =
              map (joined (date o, (key_of o, cat)))
                  (filter (at_cell (date o) (key_of o)) raw)).
  { intros o Ho.
    assert (Hk : In (key_of o) (map fst sk))
      by (apply store_skus_keys, in_map, Ho).
    apply in_map_iff in Hk. destruct Hk as ([k cat] & Ek & Hk).
    simpl in Ek. subst k.
    assert (Hd : In (date o) ds) by (apply in_day_span, Hb, Ho).
    exists cat. split; [exact Hd|]. split; [exact Hk|].
    rewrite (grid_at_cell ds sk raw (date o) (key_of o) cat); auto.
    apply join_cell_matched; [reflexivity|].
    intros E.
    assert (Hin : In o (filter (at_cell (date o) (key_of o)) raw)).
    { apply filter_In. split; [exact Ho|]. apply at_cell_true. reflexivity. }
    rewrite E in Hin. destruct Hin. }
  exists (inventory_with_gaps ds sk raw).
  split; [exact Eg|]. split; [|split].
  - intros o Ho. destruct (Hcell o Ho) as (cat & _ & _ & E).
    exists (joined (date o, (key_of o, cat)) o). split; [|split].
    + assert (Hin : In (joined (date o, (key_of o, cat)) o)
                       (filter (at_cell (date o) (key_of o))
                               (inventory_with_gaps ds sk raw))).
      { rewrite E. apply in_map. apply filter_In.
        split; [exact Ho | apply at_cell_true; reflexivity]. }
      apply filter_In in Hin. apply Hin.
    + unfold key3. rewrite key_of_joined. reflexivity.
    + intros c. apply col_joined.
  - intros o Ho Honly. destruct (Hcell o Ho) as (cat & _ & _ & E).
    rewrite Honly in E. simpl in E.
    eexists. split; [exact E|]. intros c. apply col_joined.
  - unfold inventory_with_gaps. apply length_leftouter_ge.
    + apply NoDup_crossJoin; assumption.
    + intros o Ho. destruct (Hcell o Ho) as (cat & Hd & Hk & _).
      apply in_map_iff. exists (date o, (key_of o, cat)).
      split; [reflexivity|]. apply in_crossJoin. simpl. auto.
Qed.

Lemma observations_kept_witness :
  two_days <> [] /\ dates_ok two_days /\
  exists grid,
    expand two_days = Ok grid /\
    (forall o, In o two_days ->
       exists r, In r grid /\ key3 r = key3 o /\
                 forall c, col c r = col c o) /\
    (forall o, In o two_days ->
       filter (at_cell (date o) (key_of o)) two_days = [o] ->
       exists r, filter (at_cell (date o) (key_of o)) grid = [r] /\
                 forall c, col c r = col c o) /\
    (length two_days <= length grid)%nat.
Proof.
  split; [apply two_days_ok|]. split; [apply two_days_ok|].
  apply (observations_kept two_days); apply two_days_ok.
Defined.

(** C4 as stated fails.  A table of one record gives a grid of one row, not
    more rows than the table.  And with two records of one store and SKU
    on the same day, two rows of the grid match the (date, store_id, sku)
    of the first record, one of them with other measures. *)
Lemma grid_not_strict_nor_single :
  (exists grid,
     expand [seen_day1] = Ok grid /\
     ~ (length [seen_day1] < length grid)%nat) /\
  exists grid r,
    expand [seen_day5; seen_day5_again] = Ok grid /\
    length (filter (at_cell (date seen_day5) (key_of seen_day5)) grid)
    = 2%nat /\
    In r (filter (at_cell (date seen_day5) (key_of seen_day5)) grid) /\
    col TotalSalesUnits r <> col TotalSalesUnits seen_day5 /\
    ~ (length [seen_day5; seen_day5_again] < length grid)%nat.
Proof.
  split.
  - eexists. split; [reflexivity|]. simpl. lia.
  - eexists. eexists. split; [reflexivity|]. split; [reflexivity|].
    split; [right; left; reflexivity|]. split; [discriminate|].
    simpl. lia.
Qed.

(** For a table that holds a record, the category of a key in the
    store-SKUs is the product_category (null where that is null) of the
    last record of that key in the order of the table, whatever the dates;
    and every output row of the pipeline, on a day with a record or
    without, carries the category of its key. *)
Theorem category_of_last_record (raw : list Row) :
  raw <> [] -> dates_ok raw ->
  exists out,
    pipeline raw = Ok out /\
    (forall k cat,
       In (k, cat) (store_skus raw) <->
       exists o, last_of_key raw k o /\ product_category o = cat) /\
    (forall fr, In fr out ->
       In (key_of (record fr), product_category (record fr))
          (store_skus raw) /\
       exists o, last_of_key raw (key_of (record fr)) o /\
                 product_category (record fr) = product_category o).
Proof.
  intros Hne Hok.
  destruct (expand_grid raw Hne Hok) as (lo & hi & _ & _ & _ & _ & Eg).
  eexists. split; [apply pipeline_of_grid, Eg|]. split.
  - intros k cat. apply store_skus_last.
  - intros fr Hfr. unfold inventory_final in Hfr.
    rewrite inventory_cleansed_rows, map_map in Hfr.
    apply in_map_iff in Hfr. destruct Hfr as (r & <- & Hr). simpl.
    rewrite cleansed_row_category.
    destruct (key3_inv _ _ (cleansed_row_key3
                (inventory_with_gaps (day_span lo hi) (store_skus raw) raw)
                r)) as [_ ->].
    apply in_grid in Hr. destruct Hr as [_ Hk]. split; [exact Hk|].
    apply store_skus_last in Hk. destruct Hk as (o & Ho & Ec).
    exists o. split; [exact Ho | symmetry; exact Ec].
Qed.

Lemma category_of_last_record_witness :
  two_days <> [] /\ dates_ok two_days /\
  exists out,
    pipeline two_days = Ok out /\
    (forall k cat,
       In (k, cat) (store_skus two_days) <->
       exists o, last_of_key two_days k o /\ product_category o = cat) /\
    (forall fr, In fr out ->
       In (key_of (record fr), product_category (record fr))
          (store_skus two_days) /\
       exists o, last_of_key two_days (key_of (record fr)) o /\
                 product_category (record fr) = product_category o).
Proof.
  split; [apply two_days_ok|]. split; [apply two_days_ok|].
  apply (category_of_last_record two_days); apply two_days_ok.
Defined.

(** C7.  The code breaks it.  [f.last] is meant to give the last category
    assigned to a store-SKU, but takes the last record of the group in the
    order of the table: when the record of the later date comes first, the
    key and every output row of it get the category of the record of the
    earlier date. *)
Theorem category_not_of_latest_date :
  relabelled <> [] /\ dates_ok relabelled /\
  exists latest out,
    In latest relabelled /\
    (forall o, In o relabelled -> date o <= date latest) /\
    product_category latest = Some "frozen" /\
    store_skus relabelled = [((1, 100), Some "dairy")] /\
    pipeline relabelled = Ok out /\
    forall fr, In fr out ->
               product_category (record fr) = Some "dairy" /\
               product_category (record fr) <> product_category latest.
Proof.
  split; [discriminate|]. split; [repeat constructor; simpl; lia|].
  eexists. eexists. split; [left; reflexivity|]. split; [|split; [|split]].
  - intros o [<-|[<-|[]]]; simpl; lia.
  - reflexivity.
  - reflexivity.
  - split; [reflexivity|].
    intros fr Hfr. vm_compute in Hfr.
    destruct Hfr as [<-|[<-|[]]]; split; (reflexivity || discriminate).
Qed.

(** C8, as the code has it.  On an empty table the run fails: the minimum
    and the maximum date are null and their subtraction raises TypeError
    (the code has no EmptyInputError); the failure reaches the caller and
    no output is produced, whatever the column groups. *)
Theorem empty_table_raises :
  dates [] = Raise "TypeError" /\
  expand [] = Raise "TypeError" /\
  (forall ffill_cols zero_cols,
     run_with ffill_cols zero_cols [] = Raise "TypeError") /\
  pipeline [] = Raise "TypeError" /\
  forall out, pipeline [] <> Ok out.
Proof.
  repeat split; try reflexivity. intros out. discriminate.
Qed.

(** C8 as stated fails: the exception of the empty table is not
    EmptyInputError. *)
Lemma empty_table_not_EmptyInputError :
  pipeline [] <> Raise "EmptyInputError".
Proof. discriminate. Qed.

(** C10. The pipeline is idempotent: for a table that holds a record (its
    dates from 1000-01-01 on, which the run takes), the output rows read
    back as inventory records and run again give the same output. *)
Theorem pipeline_idempotent (raw : list Row) :
  raw <> [] -> dates_ok raw ->
  exists out,
    pipeline raw = Ok out /\
    pipeline (as_observations out) = Ok out.
Proof.
  intros Hne Hok.
  destruct (expand_grid raw Hne Hok) as (lo & hi & _ & _ & _ & _ & Eg).
  set (grid := inventory_with_gaps (day_span lo hi) (store_skus raw) raw)
    in *.
  exists (inventory_final (inventory_cleansed grid)).
  split; [apply pipeline_of_grid, Eg|].
  rewrite as_observations_final.
  rewrite <- (inventory_cleansed_idem grid) at 2.
  apply pipeline_of_grid.
  rewrite inventory_cleansed_rows.
  apply (expand_fixed raw (cleansed_row grid) grid Hne Hok); [|exact Eg].
  intros r. split; [apply cleansed_row_key3 | apply cleansed_row_category].
Qed.

Lemma pipeline_idempotent_witness :
  two_days <> [] /\ dates_ok two_days /\
  exists out,
    pipeline two_days = Ok out /\
    pipeline (as_observations out) = Ok out.
Proof.
  split; [apply two_days_ok|]. split; [apply two_days_ok|].
  apply (pipeline_idempotent two_days); apply two_days_ok.
Defined.

(** * Further properties of the notebook *)

(** ** The store-SKUs and the dates *)

(** The store-SKUs hold one group for every (store_id, sku) that a record
    of the table has, no group twice and no other group; an empty table
    has none. *)
Theorem store_skus_key_universe (raw : list Row) :
  NoDup (map fst (store_skus raw)) /\
  (forall k, In k (map fst (store_skus raw)) <->
             exists o, In o raw /\ key_of o = k) /\
  (length (store_skus raw) <= length raw)%nat /\
  (store_skus raw = [] <-> raw = []).
Proof.
  split; [apply NoDup_store_skus|]. split; [|split].
  - intros k. rewrite store_skus_keys, in_map_iff.
    split; intros (o & H1 & H2); exists o; auto.
  - rewrite <- (length_map fst (store_skus raw)).
    rewrite <- (length_map key_of raw).
    apply NoDup_incl_length; [apply NoDup_store_skus|].
    intros k Hk. apply store_skus_keys, Hk.
  - split; [|intros ->; reflexivity].
    intros E. destruct raw as [|o raw]; [reflexivity|].
    exfalso. apply (store_skus_nonempty (o :: raw)); [discriminate|exact E].
Qed.

(** The dates depend on the records of the table, not on their order. *)
Theorem dates_permutation (raw raw' : list Row) :
  Permutation raw raw' -> dates raw = dates raw'.
Proof.
  intros HP.
  assert (HP' : Permutation (map date raw) (map date raw'))
    by (apply Permutation_map, HP).
  unfold dates.
  destruct (map date raw) as [|a l] eqn:E.
  - apply Permutation_nil in HP'. rewrite HP'. reflexivity.
  - assert (Hne : a :: l <> []) by discriminate.
    destruct (agg_min_spec _ Hne) as (lo & Elo & Hlo & Hmin).
    destruct (agg_max_spec _ Hne) as (hi & Ehi & Hhi & Hmax).
    rewrite Elo, Ehi.
    rewrite (agg_min_unique (map date raw') lo),
            (agg_max_unique (map date raw') hi); [reflexivity| | | |].
    + apply (Permutation_in _ HP'), Hhi.
    + intros x Hx. apply Hmax.
      apply (Permutation_in _ (Permutation_sym HP')), Hx.
    + apply (Permutation_in _ HP'), Hlo.
    + intros x Hx. apply Hmin.
      apply (Permutation_in _ (Permutation_sym HP')), Hx.
Qed.

Lemma dates_permutation_witness :
  Permutation two_days [seen_day5; seen_day1] /\
  dates two_days = dates [seen_day5; seen_day1].
Proof.
  split; [apply perm_swap|].
  apply (dates_permutation two_days [seen_day5; seen_day1]).
  apply perm_swap.
Defined.

(** ** The grid *)

(** The grid is complete: expanding the rows of a grid gives the grid
    itself, no row added, dropped or changed. *)
Theorem expand_idempotent (raw grid : list Row) :
  raw <> [] -> dates_ok raw -> expand raw = Ok grid ->
  expand grid = Ok grid.
Proof.
  intros Hne Hok E.
  pose proof (expand_fixed raw (fun r => r) grid Hne Hok
                (fun r => conj eq_refl eq_refl) E) as H.
  rewrite map_id in H. exact H.
Qed.

Lemma expand_idempotent_witness :
  two_days <> [] /\ dates_ok two_days /\
  exists grid, expand two_days = Ok grid /\ expand grid = Ok grid.
Proof.
  split; [apply two_days_ok|]. split; [apply two_days_ok|].
  eexists. split; [reflexivity|].
  apply (expand_idempotent two_days); [apply two_days_ok ..|reflexivity].
Defined.

Lemma length_join_cell raw cell :
  length (join_cell raw cell) =
  Nat.max 1 (length (filter (join_on cell) raw)).
Proof.
  unfold join_cell. destruct (filter (join_on cell) raw) as [|m ms];
    [reflexivity|].
  rewrite length_map. simpl. destruct (length ms); reflexivity.
Qed.

Lemma length_leftouter_cells cells raw :
  (length cells <= length (leftouter cells raw))%nat.
Proof.
  unfold leftouter. induction cells as [|c cs IH]; simpl; [lia|].
  rewrite length_app. pose proof (length_join_cell raw c). lia.
Qed.

(** A row of the grid is a null row or carries the measures of a record of
    its date and key. *)
Lemma grid_row_origin ds sk raw r :
  In r (inventory_with_gaps ds sk raw) ->
  (filter (at_cell (date r) (key_of r)) raw = [] /\
   forall c, col c r = None) \/
  (exists o, In o raw /\ key3 o = key3 r /\ forall c, col c r = col c o).
Proof.
  unfold inventory_with_gaps, leftouter. rewrite in_flat_map.
  intros (cell & _ & Hr).
  pose proof (join_cell_key3 _ _ _ Hr) as E3.
  apply in_join_cell in Hr. destruct Hr as [[E ->]|(o & Ho & Hj & ->)].
  - left. split; [|intros c; destruct c; reflexivity].
    unfold join_on in E. exact E.
  - right. exists o. split; [exact Ho|]. split.
    + rewrite E3. apply join_on_true, Hj.
    + intros c. apply col_joined.
Qed.

Lemma filter_map_commute {A B : Type} (f : A -> B) (p : B -> bool)
      (l : list A) :
  filter p (map f l) = map f (filter (fun x => p (f x)) l).
Proof.
  induction l as [|a l IH]; simpl; [reflexivity|].
  destruct (p (f a)); simpl; rewrite IH; reflexivity.
Qed.

(** The output rows of a date of the range and a key of the store-SKUs. *)
Lemma output_at_cell raw lo hi d k cat :
  In d (day_span lo hi) -> In (k, cat) (store_skus raw) ->
  let grid := inventory_with_gaps (day_span lo hi) (store_skus raw) raw in
  filter (fun fr => at_cell d k (record fr))
         (inventory_final (inventory_cleansed grid)) =
  map (fun r => flag_row (cleansed_row grid r))
      (join_cell raw (d, (k, cat))).
Proof.
  intros Hd Hk grid. unfold inventory_final.
  rewrite filter_map_commute. simpl.
  rewrite inventory_cleansed_rows.
  rewrite filter_at_cell_map by apply cleansed_row_key3.
  rewrite map_map. unfold grid at 2.
  rewrite (grid_at_cell _ _ raw d k cat); auto.
  - apply NoDup_day_span.
  - apply NoDup_store_skus.
Qed.

(** Every date of the range and key of the store-SKUs has its rows in the
    output: one row where the table has no record of that date and key,
    else as many rows as the table has such records.  So the output has at
    least |dates| x |store-SKUs| rows. *)
Theorem rows_per_cell (raw : list Row) :
  raw <> [] -> dates_ok raw ->
  exists ds out,
    dates raw = Ok ds /\ pipeline raw = Ok out /\
    (forall d k, In d ds -> In k (map fst (store_skus raw)) ->
       length (filter (fun fr => at_cell d k (record fr)) out) =
       Nat.max 1 (length (filter (at_cell d k) raw))) /\
    (length ds * length (store_skus raw) <= length out)%nat.
Proof.
  intros Hne Hok.
  destruct (expand_grid raw Hne Hok) as (lo & hi & _ & _ & _ & Ed & Eg).
  exists (day_span lo hi). eexists.
  split; [exact Ed|]. split; [apply pipeline_of_grid, Eg|]. split.
  - intros d k Hd Hk. apply in_map_iff in Hk.
    destruct Hk as ([k' cat] & Ek & Hk). simpl in Ek. subst k'.
    rewrite (output_at_cell raw lo hi d k cat Hd Hk).
    rewrite length_map. apply length_join_cell.
  - unfold inventory_final. rewrite length_map, inventory_cleansed_rows.
    rewrite length_map, <- length_crossJoin.
    apply length_leftouter_cells.
Qed.

Lemma rows_per_cell_witness :
  two_days <> [] /\ dates_ok two_days /\
  exists ds out,
    dates two_days = Ok ds /\ pipeline two_days = Ok out /\
    (forall d k, In d ds -> In k (map fst (store_skus two_days)) ->
       length (filter (fun fr => at_cell d k (record fr)) out) =
       Nat.max 1 (length (filter (at_cell d k) two_days))) /\
    (length ds * length (store_skus two_days) <= length out)%nat.
Proof.
  split; [apply two_days_ok|]. split; [apply two_days_ok|].
  apply (rows_per_cell two_days); apply two_days_ok.
Defined.

Lemma join_cell_unmatched raw d k cat :
  filter (at_cell d k) raw = [] ->
  join_cell raw (d, (k, cat)) = [unmatched (d, (k, cat))].
Proof.
  intros E. unfold join_cell.
  change (filter (join_on (d, (k, cat))) raw)
    with (filter (at_cell d k) raw).
  rewrite E. reflexivity.
Qed.

(** A date of the range and a key of the store-SKUs without a record in the
    table has exactly one row in the grid: the key's category and every
    measure null. *)
Theorem gap_row_null (raw : list Row) (d : Z) (k : Key) :
  raw <> [] -> dates_ok raw ->
  filter (at_cell d k) raw = [] ->
  exists ds grid,
    dates raw = Ok ds /\ expand raw = Ok grid /\
    (In d ds -> forall cat, In (k, cat) (store_skus raw) ->
       exists r, filter (at_cell d k) grid = [r] /\
                 key3 r = (d, k) /\ product_category r = cat /\
                 forall c, col c r = None).
Proof.
  intros Hne Hok Hgap.
  destruct (expand_grid raw Hne Hok) as (lo & hi & _ & _ & _ & Ed & Eg).
  exists (day_span lo hi). eexists.
  split; [exact Ed|]. split; [exact Eg|].
  intros Hd cat Hk. exists (unmatched (d, (k, cat))).
  rewrite (grid_at_cell _ _ raw d k cat); auto.
  - rewrite (join_cell_unmatched raw d k cat Hgap).
    split; [reflexivity|]. split; [|split].
    + unfold key3. rewrite key_of_unmatched. reflexivity.
    + reflexivity.
    + intros c. destruct c; reflexivity.
  - apply NoDup_day_span.
  - apply NoDup_store_skus.
Qed.

Lemma gap_row_null_witness :
  two_days <> [] /\ dates_ok two_days /\
  filter (at_cell 737793 (1, 100)) two_days = [] /\
  exists ds grid,
    dates two_days = Ok ds /\ expand two_days = Ok grid /\
    (In 737793 ds -> forall cat, In ((1, 100), cat) (store_skus two_days) ->
       exists r, filter (at_cell 737793 (1, 100)) grid = [r] /\
                 key3 r = (737793, (1, 100)) /\ product_category r = cat /\
                 forall c, col c r = None).
Proof.
  split; [apply two_days_ok|]. split; [apply two_days_ok|].
  split; [reflexivity|].
  apply (gap_row_null two_days 737793 (1, 100));
    [apply two_days_ok | apply two_days_ok | reflexivity].
Defined.

(** On such a date the output has one row for the key, with every FLOW
    column 0 and both flags 0. *)
Theorem gap_day_output (raw : list Row) (d : Z) (k : Key) :
  raw <> [] -> dates_ok raw ->
  filter (at_cell d k) raw = [] ->
  exists ds out,
    dates raw = Ok ds /\ pipeline raw = Ok out /\
    (In d ds -> In k (map fst (store_skus raw)) ->
       exists fr, filter (fun fr => at_cell d k (record fr)) out = [fr] /\
                  (forall c, In c [TotalSalesUnits; UnitsUnderPromotion; UnitsInTransit;
                             UnitsInDc; UnitsOnOrder; ReplenishmentUnits;
                             InventoryPipeline] ->
                             col c (record fr) = Some 0) /\
                  promotion_flag fr = 0 /\ replenishment_flag fr = 0).
Proof.
  intros Hne Hok Hgap.
  destruct (expand_grid raw Hne Hok) as (lo & hi & _ & _ & _ & Ed & Eg).
  exists (day_span lo hi). eexists.
  split; [exact Ed|]. split; [apply pipeline_of_grid, Eg|].
  intros Hd Hk. apply in_map_iff in Hk.
  destruct Hk as ([k' cat] & Ek & Hk). simpl in Ek. subst k'.
  rewrite (output_at_cell raw lo hi d k cat Hd Hk).
  rewrite (join_cell_unmatched raw d k cat Hgap).
  simpl map. eexists. split; [reflexivity|].
  set (grid := inventory_with_gaps (day_span lo hi) (store_skus raw) raw).
  assert (Hflow : forall c, In c FLOW ->
            col c (cleansed_row grid (unmatched (d, (k, cat)))) = Some 0).
  { intros c Hc. rewrite (cleansed_row_flow grid _ c Hc).
    destruct c; reflexivity. }
  split; [exact Hflow|].
  pose proof (Hflow UnitsUnderPromotion
                ltac:(unfold FLOW; simpl; tauto)) as Hu.
  pose proof (Hflow ReplenishmentUnits
                ltac:(unfold FLOW; simpl; tauto)) as Hp.
  cbn [col] in Hu, Hp.
  unfold flag_row. cbn [promotion_flag replenishment_flag].
  rewrite Hu, Hp. split; reflexivity.
Qed.

Lemma gap_day_output_witness :
  two_days <> [] /\ dates_ok two_days /\
  filter (at_cell 737793 (1, 100)) two_days = [] /\
  exists ds out,
    dates two_days = Ok ds /\ pipeline two_days = Ok out /\
    (In 737793 ds -> In (1, 100) (map fst (store_skus two_days)) ->
       exists fr,
         filter (fun fr => at_cell 737793 (1, 100) (record fr)) out = [fr] /\
         (forall c, In c [TotalSalesUnits; UnitsUnderPromotion; UnitsInTransit;
                             UnitsInDc; UnitsOnOrder; ReplenishmentUnits;
                             InventoryPipeline] ->
                    col c (record fr) = Some 0) /\
         promotion_flag fr = 0 /\ replenishment_flag fr = 0).
Proof.
  split; [apply two_days_ok|]. split; [apply two_days_ok|].
  split; [reflexivity|].
  apply (gap_day_output two_days 737793 (1, 100));
    [apply two_days_ok | apply two_days_ok | reflexivity].
Defined.

(** ** The imputation *)

Lemma last_over_self c df r x :
  In r df -> col c r = Some x ->
  (forall q, In q df -> key3 q = key3 r -> q = r) ->
  last_over c df (key_of r) (date r) = Some x.
Proof.
  intros Hr Hx Honly.
  pose proof (last_over_carried c df (key_of r) (date r)) as H.
  destruct (last_over c df (key_of r) (date r)) as [y|]; simpl in H.
  - destruct H as (p & Hp & Hk & Hd & Hy & Hnull).
    destruct (Z.eq_dec (date p) (date r)) as [E|E].
    + assert (p = r).
      { apply Honly; [exact Hp|]. unfold key3. rewrite E, Hk. reflexivity. }
      subst p. congruence.
    + assert (col c r = None) by (apply Hnull; auto; lia). congruence.
  - assert (col c r = None) by (apply H; auto; lia). congruence.
Qed.

Lemma cleansed_row_keeps df r c x :
  In r df -> col c r = Some x ->
  (forall q, In q df -> key3 q = key3 r -> q = r) ->
  col c (cleansed_row df r) = Some x.
Proof.
  intros Hr Hx Honly.
  pose proof (proj2 STATE_FLOW_partition c) as Hc.
  apply in_app_iff in Hc. destruct Hc as [Hc|Hc].
  - rewrite (cleansed_row_state df r c Hc).
    apply last_over_self; assumption.
  - rewrite (cleansed_row_flow df r c Hc), Hx. reflexivity.
Qed.

Lemma last_over_mono c df k d1 d2 :
  d1 <= d2 -> last_over c df k d1 <> None -> last_over c df k d2 <> None.
Proof.
  intros Hle H1 H2.
  pose proof (last_over_carried c df k d1) as Hc1.
  pose proof (last_over_carried c df k d2) as Hc2.
  rewrite H2 in Hc2. simpl in Hc2.
  destruct (last_over c df k d1) as [x|]; [|congruence]. simpl in Hc1.
  destruct Hc1 as (p & Hp & Hk & Hd & Hx & _).
  assert (col c p = None) by (apply Hc2; auto; lia). congruence.
Qed.

(** The imputation overwrites no value: where a row is the only one of its
    date and key, every measure of it that is not null is the same after
    the imputation. *)
Theorem observed_value_kept (df : list Row) (i : nat) (r : Row)
        (c : column) (x : Z) :
  nth_error df i = Some r ->
  (forall q, In q df -> key3 q = key3 r -> q = r) ->
  col c r = Some x ->
  exists r', nth_error (inventory_cleansed df) i = Some r' /\
             col c r' = Some x.
Proof.
  intros Hi Honly Hx. exists (cleansed_row df r). split.
  - rewrite inventory_cleansed_rows, nth_error_map, Hi. reflexivity.
  - apply cleansed_row_keeps; auto. apply (nth_error_In df i Hi).
Qed.

Lemma observed_value_kept_witness :
  nth_error two_days 1 = Some seen_day5 /\
  (forall q, In q two_days -> key3 q = key3 seen_day5 -> q = seen_day5) /\
  col OnHandInventoryUnits seen_day5 = Some 30 /\
  exists r', nth_error (inventory_cleansed two_days) 1 = Some r' /\
             col OnHandInventoryUnits r' = Some 30.
Proof.
  assert (H : forall q, In q two_days -> key3 q = key3 seen_day5 ->
                        q = seen_day5).
  { intros q [<-|[<-|[]]] E; [discriminate E | reflexivity]. }
  split; [reflexivity|]. split; [exact H|]. split; [reflexivity|].
  apply (observed_value_kept two_days 1 seen_day5 OnHandInventoryUnits 30);
    [reflexivity | exact H | reflexivity].
Defined.

(** Once a STATE column of a key has a value, it has one on every later
    date of that key: after the imputation the nulls of a key are at its
    first dates only. *)
Theorem state_known_stays_known (df : list Row) (i j : nat) (r1 r2 : Row)
        (c : column) :
  In c STATE ->
  nth_error df i = Some r1 -> nth_error df j = Some r2 ->
  key_of r1 = key_of r2 -> date r1 <= date r2 ->
  exists r1' r2',
    nth_error (inventory_cleansed df) i = Some r1' /\
    nth_error (inventory_cleansed df) j = Some r2' /\
    (col c r1' <> None -> col c r2' <> None).
Proof.
  intros Hc Hi Hj Hk Hd.
  exists (cleansed_row df r1), (cleansed_row df r2).
  rewrite inventory_cleansed_rows, !nth_error_map, Hi, Hj.
  split; [reflexivity|]. split; [reflexivity|].
  rewrite !(cleansed_row_state df _ c Hc), Hk.
  apply last_over_mono, Hd.
Qed.

Lemma state_known_stays_known_witness :
  In ShelfCapacity STATE /\
  nth_error two_days 0 = Some seen_day1 /\
  nth_error two_days 1 = Some seen_day5 /\
  key_of seen_day1 = key_of seen_day5 /\ date seen_day1 <= date seen_day5 /\
  exists r1' r2',
    nth_error (inventory_cleansed two_days) 0 = Some r1' /\
    nth_error (inventory_cleansed two_days) 1 = Some r2' /\
    (col ShelfCapacity r1' <> None -> col ShelfCapacity r2' <> None).
Proof.
  split; [left; reflexivity|]. split; [reflexivity|].
  split; [reflexivity|]. split; [reflexivity|]. split; [simpl; lia|].
  apply (state_known_stays_known two_days 0 1 seen_day1 seen_day5
           ShelfCapacity);
    [left; reflexivity | reflexivity | reflexivity | reflexivity
     | simpl; lia].
Defined.

(** Imputing an imputed DataFrame gives the same rows again, whatever the
    rows (also with several rows of one date and key); the imputation
    keeps the number of rows and their dates and keys. *)
Theorem imputation_idempotent (df : list Row) :
  inventory_cleansed (inventory_cleansed df) = inventory_cleansed df /\
  length (inventory_cleansed df) = length df /\
  Permutation (map key3 (inventory_cleansed df)) (map key3 df).
Proof.
  split; [apply inventory_cleansed_idem|].
  rewrite inventory_cleansed_rows, length_map, !map_map.
  split; [reflexivity|].
  rewrite (map_ext _ key3 (cleansed_row_key3 df)). apply Permutation_refl.
Qed.

Lemma with_col_commute c1 c2 v w r :
  c1 <> c2 ->
  with_col c1 v (with_col c2 w r) = with_col c2 w (with_col c1 v r).
Proof. destruct r, c1, c2; congruence || reflexivity. Qed.

Lemma forward_fill_twice c1 c2 df :
  c1 <> c2 ->
  forward_fill c1 (forward_fill c2 df) =
  map (fun r => with_col c1 (last_over c1 df (key_of r) (date r))
                  (with_col c2 (last_over c2 df (key_of r) (date r)) r))
      df.
Proof.
  intros Hne. unfold forward_fill at 1. unfold forward_fill at 2.
  rewrite map_map. apply map_ext. intros r.
  rewrite key_of_with_col, date_with_col. f_equal.
  symmetry. apply last_over_ext. apply Forall2_map_self.
  intros x. rewrite key3_with_col. split; [reflexivity|].
  rewrite col_with_col_other by assumption. reflexivity.
Qed.

Lemma fillna_row_with_col v subset c x r :
  ~ In c subset ->
  fillna_row v subset (with_col c x r) = with_col c x (fillna_row v subset r).
Proof.
  intros Hn. apply row_ext.
  - rewrite fillna_row_date, !date_with_col, fillna_row_date. reflexivity.
  - rewrite fillna_row_key, !key_of_with_col, fillna_row_key. reflexivity.
  - rewrite fillna_row_category, !category_with_col, fillna_row_category.
    reflexivity.
  - intros c'. rewrite fillna_row_col.
    destruct (column_eq_dec c' c) as [->|Hne].
    + rewrite !col_with_col_same.
      destruct (in_dec column_eq_dec c subset); [contradiction|reflexivity].
    + rewrite !col_with_col_other by assumption.
      rewrite fillna_row_col. reflexivity.
Qed.

(** The passes of the imputation can run in any order: two forward fills
    commute, a forward fill commutes with a [fillna] on other columns, and
    the cell gives the same DataFrame with its two columns forward-filled
    in the other order. *)
Theorem imputation_passes_commute (df : list Row) :
  (forall c1 c2,
     forward_fill c1 (forward_fill c2 df) =
     forward_fill c2 (forward_fill c1 df)) /\
  (forall c v subset, ~ In c subset ->
     fillna v subset (forward_fill c df) =
     forward_fill c (fillna v subset df)) /\
  impute [OnHandInventoryUnits; ShelfCapacity] FLOW df =
  inventory_cleansed df.
Proof.
  assert (Hff : forall c1 c2,
            forward_fill c1 (forward_fill c2 df) =
            forward_fill c2 (forward_fill c1 df)).
  { intros c1 c2. destruct (column_eq_dec c1 c2) as [->|Hne];
      [reflexivity|].
    rewrite (forward_fill_twice c1 c2 df Hne).
    rewrite (forward_fill_twice c2 c1 df (not_eq_sym Hne)).
    apply map_ext. intros r. apply with_col_commute, Hne. }
  split; [exact Hff|]. split.
  - intros c v subset Hn. unfold fillna, forward_fill.
    rewrite !map_map. apply map_ext. intros r.
    rewrite fillna_row_key, fillna_row_date.
    rewrite (fillna_row_with_col v subset c _ r Hn). f_equal.
    apply last_over_ext. apply Forall2_map_self.
    intros x. rewrite key3_fillna_row. split; [reflexivity|].
    rewrite fillna_row_col.
    destruct (in_dec column_eq_dec c subset); [contradiction|reflexivity].
  - unfold inventory_cleansed, impute, STATE. cbn [fold_left].
    rewrite Hff. reflexivity.
Qed.

(** ** From the records to the output *)

(** Every record of the table has its row in the grid. *)
Lemma record_in_grid raw lo hi o :
  In o raw -> lo <= date o <= hi ->
  exists r, In r (inventory_with_gaps (day_span lo hi) (store_skus raw) raw)
            /\ key3 r = key3 o /\ forall c, col c r = col c o.
Proof.
  intros Ho Hd.
  assert (Hk : In (key_of o) (map fst (store_skus raw)))
    by (apply store_skus_keys, in_map, Ho).
  apply in_map_iff in Hk. destruct Hk as ([k cat] & Ek & Hk).
  simpl in Ek. subst k.
  exists (joined (date o, (key_of o, cat)) o). split; [|split].
  - unfold inventory_with_gaps, leftouter. apply in_flat_map.
    exists (date o, (key_of o, cat)). split.
    + apply in_crossJoin. simpl. split; [apply in_day_span, Hd | exact Hk].
    + apply in_join_cell. right. exists o. split; [exact Ho|].
      split; [apply join_on_true; reflexivity | reflexivity].
  - unfold key3. rewrite key_of_joined. reflexivity.
  - intros c. apply col_joined.
Qed.

Lemma carried_grid_records c raw lo hi k d v :
  (forall o, In o raw -> lo <= date o <= hi) ->
  carried c (inventory_with_gaps (day_span lo hi) (store_skus raw) raw)
          k d v ->
  carried c raw k d v.
Proof.
  intros Hb H.
  assert (Hrec : forall o, In o raw -> key_of o = k ->
            exists r, In r (inventory_with_gaps (day_span lo hi)
                              (store_skus raw) raw) /\
                      key_of r = k /\ date r = date o /\
                      col c r = col c o).
  { intros o Ho Hk.
    destruct (record_in_grid raw lo hi o Ho (Hb o Ho)) as (r & Hr & E & Hc).
    exists r. destruct (key3_inv _ _ E) as [Ed Ek].
    repeat split; auto. congruence. }
  destruct v as [x|]; simpl in *.
  - destruct H as (p & Hp & Hk & Hd & Hx & Hnull).
    destruct (grid_row_origin _ _ _ _ Hp) as [[_ Hn]|(o & Ho & E & Hc)].
    + rewrite Hn in Hx. discriminate.
    + destruct (key3_inv _ _ E) as [Ed Ek].
      exists o. split; [exact Ho|]. split; [congruence|].
      split; [lia|]. split; [rewrite <- Hc; exact Hx|].
      intros q Hq Hqk Hqd.
      destruct (Hrec q Hq Hqk) as (r & Hr & Hrk & Hrd & Hrc).
      rewrite <- Hrc. apply Hnull; auto. lia.
  - intros o Ho Hk Hd.
    destruct (Hrec o Ho Hk) as (r & Hr & Hrk & Hrd & Hrc).
    rewrite <- Hrc. apply H; auto. lia.
Qed.

(** Carry-forward, from the records to the output.  A STATE column of an
    output row has the value of a record of the same key at an earlier or
    equal date, not null, with no value of that column in the later records
    of the key up to the row's date; it is null exactly when no record of
    the key up to that date has a value for it. *)
Theorem carry_forward_from_records (raw : list Row) (out : list FinalRow)
        (fr : FinalRow) (c : column) :
  dates_ok raw -> pipeline raw = Ok out -> In fr out -> In c STATE ->
  carried c raw (key_of (record fr)) (date (record fr)) (col c (record fr))
  /\ (col c (record fr) = None <->
      forall o, In o raw -> key_of o = key_of (record fr) ->
                date o <= date (record fr) -> col c o = None).
Proof.
  intros Hok E Hfr Hc.
  assert (Hne : raw <> []) by (intros ->; discriminate E).
  destruct (expand_grid raw Hne Hok) as (lo & hi & _ & _ & Hb & _ & Eg).
  rewrite (pipeline_of_grid _ _ Eg) in E. inversion E; subst out. clear E.
  unfold inventory_final in Hfr.
  rewrite inventory_cleansed_rows, map_map in Hfr.
  apply in_map_iff in Hfr. destruct Hfr as (r & <- & Hr). simpl record.
  set (grid := inventory_with_gaps (day_span lo hi) (store_skus raw) raw)
    in *.
  destruct (key3_inv _ _ (cleansed_row_key3 grid r)) as [-> ->].
  rewrite (cleansed_row_state grid r c Hc).
  assert (H : carried c raw (key_of r) (date r)
                      (last_over c grid (key_of r) (date r))).
  { apply (carried_grid_records c raw lo hi); [exact Hb|].
    apply last_over_carried. }
  split; [exact H|].
  destruct (last_over c grid (key_of r) (date r)) as [x|]; simpl in H.
  - split; [discriminate|]. intros Hall.
    destruct H as (p & Hp & Hk & Hd & Hx & _).
    rewrite (Hall p Hp Hk Hd) in Hx. discriminate.
  - split; [intros _; exact H | reflexivity].
Qed.

Lemma carry_forward_from_records_witness :
  exists out fr,
    dates_ok two_days /\ pipeline two_days = Ok out /\ In fr out /\
    In ShelfCapacity STATE /\
    carried ShelfCapacity two_days (key_of (record fr)) (date (record fr))
            (col ShelfCapacity (record fr)) /\
    (col ShelfCapacity (record fr) = None <->
     forall o, In o two_days -> key_of o = key_of (record fr) ->
               date o <= date (record fr) -> col ShelfCapacity o = None).
Proof.
  eexists. eexists. split; [apply two_days_ok|].
  split; [reflexivity|]. split; [left; reflexivity|].
  split; [left; reflexivity|].
  eapply (carry_forward_from_records two_days);
    [apply two_days_ok | reflexivity | left; reflexivity
     | left; reflexivity].
Defined.

(** A record that is the only one of its date and key has exactly one
    output row, with every measure it has: a value that is not null is
    unchanged, a null FLOW column is 0. *)
Theorem record_measures_kept (raw : list Row) (o : Row) :
  raw <> [] -> dates_ok raw -> In o raw ->
  filter (at_cell (date o) (key_of o)) raw = [o] ->
  exists out fr,
    pipeline raw = Ok out /\
    filter (fun fr => at_cell (date o) (key_of o) (record fr)) out = [fr] /\
    (forall c x, col c o = Some x -> col c (record fr) = Some x) /\
    (forall c, In c [TotalSalesUnits; UnitsUnderPromotion; UnitsInTransit;
                             UnitsInDc; UnitsOnOrder; ReplenishmentUnits;
                             InventoryPipeline] ->
               col c o = None -> col c (record fr) = Some 0).
Proof.
  intros Hne Hok Ho Honly.
  destruct (expand_grid raw Hne Hok) as (lo & hi & _ & _ & Hb & _ & Eg).
  assert (Hk : In (key_of o) (map fst (store_skus raw)))
    by (apply store_skus_keys, in_map, Ho).
  apply in_map_iff in Hk. destruct Hk as ([k cat] & Ek & Hk).
  simpl in Ek. subst k.
  assert (Hd : In (date o) (day_span lo hi)) by (apply in_day_span, Hb, Ho).
  set (grid := inventory_with_gaps (day_span lo hi) (store_skus raw) raw)
    in *.
  set (r := joined (date o, (key_of o, cat)) o).
  assert (Hcell : filter (at_cell (date o) (key_of o)) grid = [r]).
  { unfold grid. rewrite (grid_at_cell _ _ raw (date o) (key_of o) cat);
      auto using NoDup_day_span, NoDup_store_skus.
    rewrite (join_cell_matched raw (date o, (key_of o, cat)) [o]);
      [reflexivity | exact Honly | discriminate]. }
  assert (Hr3 : key3 r = (date o, key_of o)).
  { unfold r, key3. rewrite key_of_joined. reflexivity. }
  assert (Hr : In r grid).
  { assert (H : In r (filter (at_cell (date o) (key_of o)) grid))
      by (rewrite Hcell; left; reflexivity).
    apply filter_In in H. apply H. }
  assert (Huniq : forall q, In q grid -> key3 q = key3 r -> q = r).
  { intros q Hq E.
    assert (H : In q (filter (at_cell (date o) (key_of o)) grid)).
    { apply filter_In. split; [exact Hq|]. apply at_cell_true. congruence. }
    rewrite Hcell in H. destruct H as [<-|[]]. reflexivity. }
  exists (inventory_final (inventory_cleansed grid)),
         (flag_row (cleansed_row grid r)).
  split; [apply pipeline_of_grid, Eg|]. split; [|split].
  - unfold grid. rewrite (output_at_cell raw lo hi (date o) (key_of o) cat
                            Hd Hk).
    rewrite (join_cell_matched raw (date o, (key_of o, cat)) [o]);
      [reflexivity | exact Honly | discriminate].
  - intros c x Hx. simpl record.
    apply cleansed_row_keeps; [exact Hr | | exact Huniq].
    unfold r. rewrite col_joined. exact Hx.
  - intros c Hc Hx. simpl record.
    rewrite (cleansed_row_flow grid r c Hc). unfold r.
    rewrite col_joined, Hx. reflexivity.
Qed.

Lemma record_measures_kept_witness :
  two_days <> [] /\ dates_ok two_days /\ In seen_day5 two_days /\
  filter (at_cell (date seen_day5) (key_of seen_day5)) two_days
  = [seen_day5] /\
  exists out fr,
    pipeline two_days = Ok out /\
    filter (fun fr => at_cell (date seen_day5) (key_of seen_day5)
                              (record fr)) out = [fr] /\
    (forall c x, col c seen_day5 = Some x -> col c (record fr) = Some x) /\
    (forall c, In c [TotalSalesUnits; UnitsUnderPromotion; UnitsInTransit;
                             UnitsInDc; UnitsOnOrder; ReplenishmentUnits;
                             InventoryPipeline] ->
               col c seen_day5 = None -> col c (record fr) = Some 0).
Proof.
  split; [apply two_days_ok|]. split; [apply two_days_ok|].
  split; [right; left; reflexivity|]. split; [reflexivity|].
  apply (record_measures_kept two_days seen_day5);
    [apply two_days_ok | apply two_days_ok | right; left; reflexivity
     | reflexivity].
Defined.



(** The output holds no key and no date of its own making: every output
    row has the key of a record of the table, with the category of the last
    record of that key, and a date between two dates of the table. *)
Theorem output_rows_in_grid (raw : list Row) (out : list FinalRow)
        (fr : FinalRow) :
  dates_ok raw -> pipeline raw = Ok out -> In fr out ->
  (exists o, last_of_key raw (key_of (record fr)) o /\
             product_category (record fr) = product_category o) /\
  (exists o1 o2, In o1 raw /\ In o2 raw /\
                 date o1 <= date (record fr) <= date o2).
Proof.
  intros Hok E Hfr.
  assert (Hne : raw <> []) by (intros ->; discriminate E).
  destruct (expand_grid raw Hne Hok) as (lo & hi & Hlo & Hhi & _ & _ & Eg).
  rewrite (pipeline_of_grid _ _ Eg) in E. inversion E; subst out. clear E.
  unfold inventory_final in Hfr.
  rewrite inventory_cleansed_rows, map_map in Hfr.
  apply in_map_iff in Hfr. destruct Hfr as (r & <- & Hr). simpl record.
  set (grid := inventory_with_gaps (day_span lo hi) (store_skus raw) raw)
    in *.
  destruct (key3_inv _ _ (cleansed_row_key3 grid r)) as [-> ->].
  rewrite cleansed_row_category.
  apply in_grid in Hr. destruct Hr as [Hd Hk]. split.
  - apply store_skus_last in Hk. destruct Hk as (o & Ho & Ec).
    exists o. split; [exact Ho | symmetry; exact Ec].
  - apply in_map_iff in Hlo. destruct Hlo as (o1 & E1 & Ho1).
    apply in_map_iff in Hhi. destruct Hhi as (o2 & E2 & Ho2).
    exists o1, o2. split; [exact Ho1|]. split; [exact Ho2|].
    rewrite E1, E2. apply in_day_span, Hd.
Qed.

Lemma output_rows_in_grid_witness :
  exists out fr,
    dates_ok two_days /\ pipeline two_days = Ok out /\ In fr out /\
    (exists o, last_of_key two_days (key_of (record fr)) o /\
               product_category (record fr) = product_category o) /\
    (exists o1 o2, In o1 two_days /\ In o2 two_days /\
                   date o1 <= date (record fr) <= date o2).
Proof.
  eexists. eexists. split; [apply two_days_ok|].
  split; [reflexivity|]. split; [left; reflexivity|].
  eapply (output_rows_in_grid two_days);
    [apply two_days_ok | reflexivity | left; reflexivity].
Defined.

Lemma zero_filled_positive v n :
  0 < n -> (zero_filled v = Some n <-> v = Some n).
Proof.
  intros Hn. destruct v as [m|]; simpl; [reflexivity|].
  split; [intros E; inversion E; lia | intros E; discriminate E].
Qed.

(** A flag is raised by a record and by nothing else: an output row has
    promotion_flag 1 (replenishment_flag 1) only if the table has a record
    of its date and key with units_under_promotion > 0
    (replenishment_units > 0), and every such record has an output row of
    its date and key with the flag 1. *)
Theorem flags_from_records (raw : list Row) (out : list FinalRow) :
  dates_ok raw -> pipeline raw = Ok out ->
  (forall fr, In fr out ->
     (promotion_flag fr = 1 ->
      exists o n, In o raw /\ key3 o = key3 (record fr) /\
                  units_under_promotion o = Some n /\ 0 < n) /\
     (replenishment_flag fr = 1 ->
      exists o n, In o raw /\ key3 o = key3 (record fr) /\
                  replenishment_units o = Some n /\ 0 < n)) /\
  (forall o n, In o raw -> 0 < n ->
     (units_under_promotion o = Some n ->
      exists fr, In fr out /\ key3 (record fr) = key3 o /\
                 promotion_flag fr = 1) /\
     (replenishment_units o = Some n ->
      exists fr, In fr out /\ key3 (record fr) = key3 o /\
                 replenishment_flag fr = 1)).
Proof.
  intros Hok E.
  assert (Hne : raw <> []) by (intros ->; discriminate E).
  destruct (expand_grid raw Hne Hok) as (lo & hi & _ & _ & Hb & _ & Eg).
  rewrite (pipeline_of_grid _ _ Eg) in E. inversion E; subst out. clear E.
  set (grid := inventory_with_gaps (day_span lo hi) (store_skus raw) raw)
    in *.
  assert (Hup : In UnitsUnderPromotion FLOW) by (unfold FLOW; simpl; tauto).
  assert (Hrp : In ReplenishmentUnits FLOW) by (unfold FLOW; simpl; tauto).
  assert (Hfrom : forall r c n, In r grid -> In c FLOW -> 0 < n ->
            col c (cleansed_row grid r) = Some n ->
            exists o, In o raw /\ key3 o = key3 (cleansed_row grid r) /\
                      col c o = Some n).
  { intros r c n Hr Hc Hn Hv.
    rewrite (cleansed_row_flow grid r c Hc) in Hv.
    apply (proj1 (zero_filled_positive _ n Hn)) in Hv.
    rewrite cleansed_row_key3.
    destruct (grid_row_origin _ _ _ _ Hr) as [[_ Hnull]|(o & Ho & E3 & Hcol)].
    - rewrite Hnull in Hv. discriminate.
    - exists o. split; [exact Ho|]. split; [exact E3|].
      rewrite <- Hcol. exact Hv. }
  assert (Hto : forall o c n, In o raw -> In c FLOW -> col c o = Some n ->
            exists r, In r grid /\ key3 (cleansed_row grid r) = key3 o /\
                      col c (cleansed_row grid r) = Some n).
  { intros o c n Ho Hc Hv.
    destruct (record_in_grid raw lo hi o Ho (Hb o Ho)) as (r & Hr & E3 & Hcol).
    exists r. split; [exact Hr|]. rewrite cleansed_row_key3.
    split; [exact E3|].
    rewrite (cleansed_row_flow grid r c Hc), Hcol, Hv. reflexivity. }
  split.
  - intros fr Hfr. unfold inventory_final in Hfr.
    rewrite inventory_cleansed_rows, map_map in Hfr.
    apply in_map_iff in Hfr. destruct Hfr as (r & <- & Hr).
    unfold flag_row. cbn [promotion_flag replenishment_flag record].
    split; intros Hflag; apply case_positive_one in Hflag;
      destruct Hflag as (n & Hv & Hn).
    + destruct (Hfrom r UnitsUnderPromotion n Hr Hup Hn Hv)
        as (o & Ho & E3 & Hc).
      exists o, n. auto.
    + destruct (Hfrom r ReplenishmentUnits n Hr Hrp Hn Hv)
        as (o & Ho & E3 & Hc).
      exists o, n. auto.
  - intros o n Ho Hn. split; intros Hv.
    + destruct (Hto o UnitsUnderPromotion n Ho Hup Hv) as (r & Hr & E3 & Hc).
      exists (flag_row (cleansed_row grid r)). split; [|split].
      * unfold inventory_final. rewrite inventory_cleansed_rows, map_map.
        apply in_map_iff. exists r. auto.
      * exact E3.
      * apply case_positive_one. exists n. auto.
    + destruct (Hto o ReplenishmentUnits n Ho Hrp Hv) as (r & Hr & E3 & Hc).
      exists (flag_row (cleansed_row grid r)). split; [|split].
      * unfold inventory_final. rewrite inventory_cleansed_rows, map_map.
        apply in_map_iff. exists r. auto.
      * exact E3.
      * apply case_positive_one. exists n. auto.
Qed.

Lemma flags_from_records_witness :
  exists out,
    dates_ok two_days /\ pipeline two_days = Ok out /\
    (forall fr, In fr out ->
       (promotion_flag fr = 1 ->
        exists o n, In o two_days /\ key3 o = key3 (record fr) /\
                    units_under_promotion o = Some n /\ 0 < n) /\
       (replenishment_flag fr = 1 ->
        exists o n, In o two_days /\ key3 o = key3 (record fr) /\
                    replenishment_units o = Some n /\ 0 < n)) /\
    (forall o n, In o two_days -> 0 < n ->
       (units_under_promotion o = Some n ->
        exists fr, In fr out /\ key3 (record fr) = key3 o /\
                   promotion_flag fr = 1) /\
       (replenishment_units o = Some n ->
        exists fr, In fr out /\ key3 (record fr) = key3 o /\
                   replenishment_flag fr = 1)).
Proof.
  eexists. split; [apply two_days_ok|]. split; [reflexivity|].
  apply (flags_from_records two_days); [apply two_days_ok | reflexivity].
Defined.

(** ** The dates the run takes *)

(** A table with a record dated before 1000-01-01 does not run: its first
    date is before 1000-01-01, [f.lit(start_date)] raises
    IllegalArgumentException in the dates cell, and no later cell runs. *)
Theorem early_start_date_raises (raw : list Row) (o : Row) :
  In o raw -> date o < 364878 ->
  dates raw = Raise "IllegalArgumentException" /\
  expand raw = Raise "IllegalArgumentException" /\
  pipeline raw = Raise "IllegalArgumentException".
Proof.
  intros Ho Hd.
  assert (Hne : map date raw <> []).
  { destruct raw; [destruct Ho | discriminate]. }
  destruct (agg_min_spec _ Hne) as (lo & Elo & _ & Hmin).
  destruct (agg_max_spec _ Hne) as (hi & Ehi & _ & _).
  assert (Hlo : lo < 364878).
  { pose proof (Hmin (date o) (in_map date raw o Ho)). lia. }
  assert (E : dates raw = Raise "IllegalArgumentException").
  { unfold dates. rewrite Elo, Ehi. cbv zeta.
    rewrite (lit_date_early lo Hlo). reflexivity. }
  split; [exact E|].
  assert (E' : expand raw = Raise "IllegalArgumentException")
    by (unfold expand; rewrite E; reflexivity).
  split; [exact E'|].
  unfold pipeline, run_with. rewrite E'. reflexivity.
Qed.

Lemma early_start_date_raises_witness :
  In seen_year_999 [seen_day1; seen_year_999] /\
  date seen_year_999 < 364878 /\
  dates [seen_day1; seen_year_999] = Raise "IllegalArgumentException" /\
  expand [seen_day1; seen_year_999] = Raise "IllegalArgumentException" /\
  pipeline [seen_day1; seen_year_999] = Raise "IllegalArgumentException".
Proof.
  split; [right; left; reflexivity|]. split; [simpl; lia|].
  apply (early_start_date_raises [seen_day1; seen_year_999] seen_year_999);
    [right; left; reflexivity | simpl; lia].
Defined.
